(** * Session/token lifecycle, route guard and attempt submission
      of the online-quiz front end: a shallow embedding and its properties.

    Embedded sources:
    - the NextAuth options module (refreshAccessToken and the jwt callback),
    - the route middleware (middleware and the authorized callback under
      next-auth's withAuth),
    - the quiz-attempt form (handleSubmit). *)

From Stdlib Require Import NArith Ascii String List Lia DecimalString.
From stdpp Require Import gmap strings list sorting.

(** ** JavaScript values as they are used by the embedded code *)

Module Js.

(** An optional string property: [None] is a missing/undefined property.
    A string is truthy when it is not empty. *)
Definition truthy_str (v : option string) : bool :=
  match v with
  | Some s => negb (String.eqb s "")
  | None => false
  end.

(** An optional numeric property holding a millisecond time stamp.
    A number is truthy when it is not 0. *)
Definition truthy_num (v : option N) : bool :=
  match v with
  | Some n => negb (N.eqb n 0)
  | None => false
  end.

(** [a ?? b] on an optional string: only a missing value falls back. *)
Definition nullish_or (a b : option string) : option string :=
  match a with
  | Some _ => a
  | None => b
  end.

End Js.

(** ** The NextAuth options module *)

Module Auth.

Inductive Role := ADMIN | TEACHER | STUDENT.

Record BackendUser := {
  id : N;
  username : string;
  email : string;
  role : Role;
  is_marked : bool
}.

(** The claims NextAuth itself keeps in a JWT; the callbacks only carry
    them along. *)
Record JWT := {
  name : option string;
  jwt_email : option string;
  picture : option string;
  sub : option string
}.

Record CustomJWT := {
  base : JWT;
  accessToken : option string;
  refreshToken : option string;
  accessTokenExpires : option N;
  user : option BackendUser;
  error : option string
}.

(** The OAuth account handed to the jwt callback on sign-in. *)
Record Account := {
  provider : string;
  access_token : option string;
  id_token : option string
}.

Record NextAuthUser := { user_id : string }.

(** Bodies of the two backend answers. *)
Record RefreshData := {
  access : string;
  refresh : option string
}.

Record LoginData := {
  login_access_token : string;
  login_refresh_token : string;
  login_user : BackendUser
}.

(** Requests sent with axios.post. *)
Inductive Request :=
| PostTokenRefresh (refresh_token : string)
| PostGoogleCallback (google_access_token google_id_token : option string).

(** The backend as the callbacks see it: each request either resolves with
    a body or throws (network error, non-2xx status); it takes some time. *)
Record Backend := {
  token_refresh : string → option RefreshData;
  google_callback : option string → option string → option LoginData;
  latency : Request → N
}.

(** What the callbacks can observe and change outside their arguments:
    the clock read by Date.now() and the requests sent so far. *)
Record World := {
  clock : N;
  requests : list Request
}.

Definition IO (A : Type) : Type := World → A * World.

Definition io_ret {A} (x : A) : IO A := λ w, (x, w).

Definition io_bind {A B} (f : A → IO B) (m : IO A) : IO B :=
  λ w, let '(x, w') := m w in f x w'.

#[export] Instance IO_ret : MRet IO := @io_ret.
#[export] Instance IO_bind : MBind IO := @io_bind.

Definition date_now : IO N := λ w, (clock w, w).

Definition sent (be : Backend) (r : Request) (w : World) : World :=
  {| clock := clock w + latency be r; requests := requests w ++ [r] |}.

Definition post_token_refresh (be : Backend) (rt : string)
  : IO (option RefreshData) :=
  λ w, (token_refresh be rt, sent be (PostTokenRefresh rt) w).

Definition post_google_callback (be : Backend) (at_ it : option string)
  : IO (option LoginData) :=
  λ w, (google_callback be at_ it, sent be (PostGoogleCallback at_ it) w).

(** 5 * 60 * 1000 *)
Definition lifetime : N := 5 * 60 * 1000.

Definition MissingRefreshTokenError : string := "MissingRefreshTokenError".
Definition RefreshAccessTokenError : string := "RefreshAccessTokenError".
Definition BackendLoginFailed : string := "BackendLoginFailed".

Section Callbacks.

Variable be : Backend.

(** refreshAccessToken(token); [{ ...token, f: v }] keeps every other
    property of [token]. *)
Definition refreshAccessToken (token : CustomJWT) : IO CustomJWT :=
  if negb (Js.truthy_str (refreshToken token)) then
    mret {| base := base token;
            accessToken := accessToken token;
            refreshToken := refreshToken token;
            accessTokenExpires := accessTokenExpires token;
            user := user token;
            error := Some MissingRefreshTokenError |}
  else
    response ← post_token_refresh be (default "" (refreshToken token));
    match response with
    | Some data =>
        now ← date_now;
        let newExpiry := (now + lifetime)%N in
        mret {| base := base token;
                accessToken := Some (access data);
                refreshToken :=
                  Js.nullish_or (refresh data) (refreshToken token);
                accessTokenExpires := Some newExpiry;
                user := user token;
                error := None |}
    | None =>
        mret {| base := base token;
                accessToken := None;
                refreshToken := None;
                accessTokenExpires := Some 0%N;
                user := user token;
                error := Some RefreshAccessTokenError |}
    end.

(** The initial sign-in branch of the jwt callback for the google
    provider: the exchange of the provider's tokens with the backend. *)
Definition identity_exchange (customToken : CustomJWT) (account : Account)
  : IO CustomJWT :=
  backendResponse ←
    post_google_callback be (access_token account) (id_token account);
  match backendResponse with
  | Some data =>
      now ← date_now;
      let accessTokenExpires' := (now + lifetime)%N in
      mret {| base := base customToken;
                accessToken := Some (login_access_token data);
                refreshToken := Some (login_refresh_token data);
                accessTokenExpires := Some accessTokenExpires';
                user := Some (login_user data);
                error := None |}
  | None =>
      mret {| base := base customToken;
                accessToken := None;
                refreshToken := None;
                accessTokenExpires := None;
                user := None;
                error := Some BackendLoginFailed |}
  end.

(** [customToken.accessTokenExpires && Date.now() < customToken.accessTokenExpires] *)
Definition still_valid (customToken : CustomJWT) (now : N) : bool :=
  Js.truthy_num (accessTokenExpires customToken)
  && match accessTokenExpires customToken with
     | Some e => (now <? e)%N
     | None => false
     end.

(** The jwt callback below its sign-in branch. *)
Definition subsequent (customToken : CustomJWT) : IO CustomJWT :=
  now ← date_now;
  if still_valid customToken now
  then mret customToken
  else if Js.truthy_str (refreshToken customToken)
  then refreshAccessToken customToken
  else mret {| base := base customToken;
               accessToken := None;
               refreshToken := refreshToken customToken;
               accessTokenExpires := None;
               user := None;
               error := Some MissingRefreshTokenError |}.

(** [account && user] *)
Definition initial_sign_in (user' : option NextAuthUser)
    (account : option Account) : bool :=
  match account, user' with
  | Some _, Some _ => true
  | _, _ => false
  end.

(** callbacks.jwt({ token, user, account, profile }) *)
Definition jwt (token : CustomJWT) (user' : option NextAuthUser)
    (account : option Account) : IO CustomJWT :=
  match account, user' with
  | Some acc, Some _ =>
      if String.eqb (provider acc) "google"
      then identity_exchange token acc
      else subsequent token
  | _, _ => subsequent token
  end.

End Callbacks.

(** A world in which nothing has been sent yet. *)
Definition at_time (t : N) : World := {| clock := t; requests := [] |}.

(** The requests a run adds to those already sent. *)
Definition no_request_sent {A} (m : IO A) (w : World) : Prop :=
  requests (snd (m w)) = requests w.

End Auth.

(** ** Regular expressions, as far as the route patterns use them *)

Module Regex.

Inductive t :=
| Void
| Eps
| Chr (c : ascii)
| Digit                       (* \d *)
| Cat (r1 r2 : t)
| Alt (r1 r2 : t)
| Star (r : t).

(** r+ *)
Definition Plus (r : t) : t := Cat r (Star r).

(** The characters of [w], then [r]. *)
Fixpoint lit (w : string) (r : t) : t :=
  match w with
  | EmptyString => r
  | String c w' => Cat (Chr c) (lit w' r)
  end.

(** \d without the unicode flag: the ten characters 0 to 9. *)
Definition is_digit (c : ascii) : bool :=
  (48 <=? nat_of_ascii c)%nat && (nat_of_ascii c <=? 57)%nat.

Fixpoint nullable (r : t) : bool :=
  match r with
  | Void => false
  | Eps => true
  | Chr _ => false
  | Digit => false
  | Cat r1 r2 => nullable r1 && nullable r2
  | Alt r1 r2 => nullable r1 || nullable r2
  | Star _ => true
  end.

Fixpoint deriv (a : ascii) (r : t) : t :=
  match r with
  | Void => Void
  | Eps => Void
  | Chr c => if Ascii.eqb a c then Eps else Void
  | Digit => if is_digit a then Eps else Void
  | Cat r1 r2 =>
      if nullable r1
      then Alt (Cat (deriv a r1) r2) (deriv a r2)
      else Cat (deriv a r1) r2
  | Alt r1 r2 => Alt (deriv a r1) (deriv a r2)
  | Star r1 => Cat (deriv a r1) (Star r1)
  end.

(** /^r$/.test(s): the whole of [s] is matched. *)
Fixpoint test_whole (r : t) (s : string) : bool :=
  match s with
  | EmptyString => nullable r
  | String a s' => test_whole (deriv a r) s'
  end.

(** /^r/.test(s): some prefix of [s] is matched. *)
Fixpoint test_start (r : t) (s : string) : bool :=
  nullable r ||
  match s with
  | EmptyString => false
  | String a s' => test_start (deriv a r) s'
  end.

(** The strings a regular expression denotes. *)
Inductive matches : t → string → Prop :=
| m_eps : matches Eps ""
| m_chr c : matches (Chr c) (String c "")
| m_digit c : is_digit c = true → matches Digit (String c "")
| m_cat r1 r2 s1 s2 :
    matches r1 s1 → matches r2 s2 → matches (Cat r1 r2) (s1 +:+ s2)
| m_alt_l r1 r2 s : matches r1 s → matches (Alt r1 r2) s
| m_alt_r r1 r2 s : matches r2 s → matches (Alt r1 r2) s
| m_star_nil r : matches (Star r) ""
| m_star_app r s1 s2 :
    matches r s1 → matches (Star r) s2 → matches (Star r) (s1 +:+ s2).

Fixpoint all_digits (s : string) : bool :=
  match s with
  | EmptyString => true
  | String c s' => is_digit c && all_digits s'
  end.

End Regex.

(** ** The route middleware *)

Module Middleware.

Import Auth(Role, ADMIN, TEACHER, STUDENT).

(** The token as this file declares it: user and role are both optional. *)
Record TokenUser := { role : option Role }.
Record CustomJWT := { user : option TokenUser }.

Inductive Response :=
| Next                        (* NextResponse.next() *)
| Redirect (target : string). (* NextResponse.redirect(new URL(target, req.url)) *)

(** The three decisions of the gate. *)
Definition Allow : Response := Next.
Definition RedirectToUnauthorized : Response :=
  Redirect "/unauthorized?reason=role".
(** pages.signIn *)
Definition signIn : string := "/login".
Definition RedirectToLogin : Response := Redirect signIn.

(** pathname.startsWith(p) *)
Definition startsWith (pathname p : string) : bool := String.prefix p pathname.

(** s.includes(sub) *)
Fixpoint includes (s sub : string) : bool :=
  String.prefix sub s ||
  match s with
  | EmptyString => false
  | String _ s' => includes s' sub
  end.

(** /^\/quizzes\/\d+\/edit$/ without its anchors *)
Definition edit_route : Regex.t :=
  Regex.lit "/quizzes/" (Regex.Cat (Regex.Plus Regex.Digit)
                                   (Regex.lit "/edit" Regex.Eps)).

(** path.replace(/\[id\]/g, "\\d+") read as a regular expression: every
    [id] becomes \d+, every other character of the template stands for
    itself (the templates contain no regular-expression operator). *)
Fixpoint template (path : string) : Regex.t :=
  match path with
  | EmptyString => Regex.Eps
  | String "[" (String "i" (String "d" (String "]" rest))) =>
      Regex.Cat (Regex.Plus Regex.Digit) (template rest)
  | String c rest => Regex.Cat (Regex.Chr c) (template rest)
  end.

(** token?.user?.role *)
Definition userRole (token : option CustomJWT) : option Role :=
  match token with
  | Some t => match user t with
              | Some u => role u
              | None => None
              end
  | None => None
  end.

Definition role_is (r : Role) (o : option Role) : bool :=
  match o, r with
  | Some ADMIN, ADMIN | Some TEACHER, TEACHER | Some STUDENT, STUDENT => true
  | _, _ => false
  end.

(** The condition guarding the Teacher/Admin routes. *)
Definition teacher_admin_route (pathname : string) : bool :=
  startsWith pathname "/quizzes/new" || Regex.test_whole edit_route pathname.

(** function middleware(req) *)
Definition middleware (token : option CustomJWT) (pathname : string)
  : Response :=
  let userRole' := userRole token in
  if teacher_admin_route pathname then
    if negb (role_is TEACHER userRole') && negb (role_is ADMIN userRole')
    then RedirectToUnauthorized
    else Next
  else Next.

Definition protectedPaths : list string :=
  ["/attempts"; "/quizzes/new"; "/quizzes/[id]/edit"].

(** protectedPaths.some(...) *)
Definition requiresAuth (pathname : string) : bool :=
  existsb (λ path,
             if includes path "[id]"
             then Regex.test_start (template path) pathname
             else startsWith pathname path)
          protectedPaths.

(** callbacks.authorized({ token, req }) *)
Definition authorized (token : option CustomJWT) (pathname : string) : bool :=
  if requiresAuth pathname
  then (match token with Some _ => true | None => false end)
  else true.

(** next-auth's withAuth(middleware, { callbacks: { authorized }, pages }):
    the authorized callback is asked first; on false the request is
    redirected to the sign-in page (the callbackUrl parameter of the
    redirect is left out), on true the wrapped middleware runs. The paths
    withAuth lets through unasked (the sign-in page, /_next, /favicon.ico,
    /api/auth) match none of the patterns above, so that both callbacks
    allow them as well. *)
Definition withAuth
    (mw : option CustomJWT → string → Response)
    (auth : option CustomJWT → string → bool)
    (token : option CustomJWT) (pathname : string) : Response :=
  if auth token pathname then mw token pathname else RedirectToLogin.

(** The exported middleware: the Authorization Gate. *)
Definition gate : option CustomJWT → string → Response :=
  withAuth middleware authorized.

(** A token whose user has role [r]. *)
Definition with_role (r : Role) : option CustomJWT :=
  Some {| user := Some {| role := Some r |} |}.

End Middleware.

(** ** The quiz-attempt form *)

Module Attempt.

Inductive QuestionType := SINGLE_MCQ | MULTI_MCQ | TRUE_FALSE.

Module Question.
Record t := {
  id : N;
  question_type : QuestionType;
  text : string;
  points : N
}.
End Question.

Module Quiz.
Record t := {
  id : N;
  title : string;
  questions : list Question.t
}.
End Quiz.

(** One entry of AnswersState. *)
Record Answer := {
  selectedOptionIds : option (list N);
  selectedAnswerBool : option bool
}.

(** AnswersState: an object indexed by question id. *)
Abbreviation AnswersState := (gmap N Answer).

(** [None] is the null sent to the backend. *)
Record ParticipantAnswerSubmit := {
  question_id : N;
  selected_option_ids : option (list N);
  selected_answer_bool : option bool
}.

Record QuizSubmission := {
  quiz_id : N;
  answers : list ParticipantAnswerSubmit
}.

Record Session := { accessToken : option string }.

(** What one run of handleSubmit does: it either sets the error message and
    stops, or posts the payload to /quizzes/<id>/submit/. *)
Inductive Outcome :=
| SetError (message : string)
| Post (quiz : N) (bearer : string) (payload : QuizSubmission).

Definition key_le (x y : N * Answer) : Prop := (x.1 ≤ y.1)%N.

#[export] Instance key_le_dec : RelDecision key_le.
Proof. intros x y. unfold key_le. apply _. Defined.

(** Object.entries(answers): an object lists its integer keys in
    ascending order; parseInt(qId, 10) gives back the number the key was
    written from. *)
Definition entries (answers' : AnswersState) : list (N * Answer) :=
  merge_sort key_le (map_to_list answers').

(** The callback of the map over the entries. *)
Definition answered (e : N * Answer) : ParticipantAnswerSubmit :=
  let '(qId, ans) := e in
  {| question_id := qId;
     selected_option_ids :=
       match selectedOptionIds ans with
       | Some l => if (0 <? length l)%nat then Some l else None
       | None => None
       end;
     selected_answer_bool := selectedAnswerBool ans |}.

(** The entry pushed for a question without an answer. *)
Definition unanswered (qid : N) : ParticipantAnswerSubmit :=
  {| question_id := qid;
     selected_option_ids := None;
     selected_answer_bool := None |}.

(** The callback of quiz.questions.forEach, on the array built so far;
    an answer recorded in the state is an object, hence truthy. *)
Definition push_unanswered (answers' : AnswersState)
    (submissionAnswers : list ParticipantAnswerSubmit) (q : Question.t)
  : list ParticipantAnswerSubmit :=
  match answers' !! Question.id q with
  | None => submissionAnswers ++ [unanswered (Question.id q)]
  | Some _ => submissionAnswers
  end.

Definition submissionAnswers (quiz : Quiz.t) (answers' : AnswersState)
  : list ParticipantAnswerSubmit :=
  fold_left (push_unanswered answers') (Quiz.questions quiz)
            (answered <$> entries answers').

Definition payload (quiz : Quiz.t) (answers' : AnswersState)
  : QuizSubmission :=
  {| quiz_id := Quiz.id quiz; answers := submissionAnswers quiz answers' |}.

(** handleSubmit, up to the request it sends. *)
Definition handleSubmit (session : option Session) (quiz : Quiz.t)
    (answers' : AnswersState) : Outcome :=
  if negb (Js.truthy_str (session ≫= accessToken))
  then SetError "Authentication error. Please log in again."
  else Post (Quiz.id quiz) (default "" (session ≫= accessToken))
            (payload quiz answers').

(** What the entry for question [qid] is to be, given what the answers
    state records for it: the selections of an answered question, with null
    for an empty or missing option selection and for a missing boolean;
    null twice for a question without a recorded answer. *)
Definition entry_for (qid : N) (recorded : option Answer)
  : ParticipantAnswerSubmit :=
  match recorded with
  | Some ans =>
      {| question_id := qid;
         selected_option_ids :=
           match selectedOptionIds ans with
           | Some (x :: l) => Some (x :: l)
           | _ => None
           end;
         selected_answer_bool := selectedAnswerBool ans |}
  | None =>
      {| question_id := qid;
         selected_option_ids := None;
         selected_answer_bool := None |}
  end.

(** The entries the forEach loop adds for the questions [qs]. *)
Definition pushed (answers' : AnswersState) (qs : list Question.t)
  : list ParticipantAnswerSubmit :=
  flat_map (λ q, match answers' !! Question.id q with
                 | None => [unanswered (Question.id q)]
                 | Some _ => []
                 end) qs.

(** The entries of a payload that answer question [qid]. *)
Definition entries_of (qid : N) (p : QuizSubmission)
  : list ParticipantAnswerSubmit :=
  filter (λ e, question_id e = qid) (answers p).

End Attempt.

Module AttemptDemo.
Import Attempt.

Definition q (n : N) : Question.t :=
  {| Question.id := n; Question.question_type := SINGLE_MCQ;
     Question.text := ""; Question.points := 1 |}.

Definition quiz3 : Quiz.t :=
  {| Quiz.id := 9; Quiz.title := "demo"; Quiz.questions := [q 5; q 2; q 7] |}.

Definition some_answers : AnswersState :=
  <[7%N := {| selectedOptionIds := Some []; selectedAnswerBool := Some true |}]>
  (<[2%N := {| selectedOptionIds := Some [4%N]; selectedAnswerBool := None |}]> ∅).

End AttemptDemo.

(** ** The session callback and the token helper of the API module *)

Module Session.

(** The session NextAuth hands to the callback. *)
Record DefaultUser := {
  name : option string;
  email : option string;
  image : option string
}.

Record DefaultSession := {
  default_user : option DefaultUser;
  default_expires : string
}.

Record CustomSession := {
  expires : string;
  accessToken : option string;
  refreshToken : option string;
  accessTokenExpires : option N;
  user : option Auth.BackendUser;
  error : option string
}.

(** callbacks.session({ session, token }): the five assignments; the user
    NextAuth had put on the session is overwritten. *)
Definition session (session0 : DefaultSession) (token : Auth.CustomJWT)
  : CustomSession :=
  {| expires := default_expires session0;
     accessToken := Auth.accessToken token;
     refreshToken := Auth.refreshToken token;
     accessTokenExpires := Auth.accessTokenExpires token;
     user := Auth.user token;
     error := Auth.error token |}.

(** What getServerSession / getSession does for getAccessToken: it throws,
    or it resolves with a session or with null. *)
Inductive Lookup :=
| Throws
| Resolves (s : option CustomSession).

(** getAccessToken(), given the outcome of the session lookup; [None] is
    the null it returns. *)
Definition getAccessToken (lookup : Lookup) : option string :=
  match lookup with
  | Throws => None
  | Resolves None => None
  | Resolves (Some customSession) =>
      match error customSession with
      | Some e =>
          if String.eqb e "RefreshAccessTokenError" then None
          else accessToken customSession
      | None => accessToken customSession
      end
  end.

(** A record fails closed when an error tag on it excludes an access
    token. *)
Definition fails_closed (token : Auth.CustomJWT) : Prop :=
  Auth.error token ≠ None → Auth.accessToken token = None.

End Session.

(** ** fetchApi and the page helpers built on it *)

Module Api.

(** `${n}` for a non-negative integer. *)
Definition decimal (n : N) : string := NilEmpty.string_of_uint (N.to_uint n).

Section WithPayload.

(** The type of request bodies and the type of response bodies. *)
Context {D T : Type}.

(** The options the callers pass: accessToken, method, data, headers. *)
Record FetchApiOptions := {
  accessToken : option string;
  method : option string;
  data : option D;
  headers : gmap string string
}.

(** The configuration handed to apiClient. *)
Record Request := {
  url : string;
  req_method : string;
  req_headers : gmap string string;
  req_data : option D
}.

(** How the call of apiClient ends: with a response, or with an AxiosError
    that has a response (its status and the message of its body, when there
    is one), only a request, or neither. *)
Inductive AxiosOutcome :=
| Resolved (response_data : T)
| ErrorResponse (status : N) (message : option string)
| ErrorRequest
| ErrorSetup (message : string).

(** How fetchApi ends. *)
Inductive Result :=
| Returns (value : T)
| ThrowsError (message : string).

(** fetchApi(endpoint, options): the request it sends, if any, and how it
    ends. *)
Definition fetchApi (transport : Request → AxiosOutcome) (endpoint : string)
    (options : FetchApiOptions) : option Request * Result :=
  let method' := default "GET" (method options) in
  if negb (Js.truthy_str (accessToken options)) then
    (None, ThrowsError "Authentication token is missing.")
  else
    let request :=
      {| url := endpoint;
         req_method := method';
         req_headers :=
           <["Authorization" :=
               "Bearer " +:+ default "" (accessToken options)]>
             (headers options);
         req_data := data options |} in
    (Some request,
     match transport request with
     | Resolved response_data => Returns response_data
     | ErrorResponse status message =>
         ThrowsError
           (if Js.truthy_str message then default "" message
            else "API request failed with status " +:+ decimal status)
     | ErrorRequest =>
         ThrowsError "API request made but no response received."
     | ErrorSetup message =>
         ThrowsError ("API request setup error: " +:+ message)
     end).

(** What a page helper hands back: a value, null, or the notFound() it
    raised. *)
Inductive Fetched :=
| Found (value : T)
| Null
| NotFound.

(** getAttemptDetail(id, accessToken) of the attempt page. *)
Definition getAttemptDetail (transport : Request → AxiosOutcome)
    (id : string) (accessToken' : option string) : option Request * Fetched :=
  if negb (Js.truthy_str accessToken') then (None, Null)
  else
    let '(sent, result) :=
      fetchApi transport ("/attempts/" +:+ id +:+ "/")
        {| accessToken := accessToken'; method := Some "GET";
           data := None; headers := ∅ |} in
    (sent,
     match result with
     | Returns attempt => Found attempt
     | ThrowsError message =>
         if Middleware.includes message "404"
            || Middleware.includes message "Not found"
         then NotFound
         else if Middleware.includes message "403"
                 || Middleware.includes message "Forbidden"
         then Null
         else Null
     end).

(** getQuizDetail(id, accessToken) of the quiz page: the token is passed on
    only when it is truthy, and nothing returns early without it. *)
Definition getQuizDetail (transport : Request → AxiosOutcome)
    (id : string) (accessToken' : option string) : option Request * Fetched :=
  let '(sent, result) :=
    fetchApi transport ("/quizzes/" +:+ id +:+ "/")
      {| accessToken :=
           if Js.truthy_str accessToken' then accessToken' else None;
         method := Some "GET"; data := None; headers := ∅ |} in
  (sent,
   match result with
   | Returns quiz => Found quiz
   | ThrowsError message =>
       if Middleware.includes message "404"
          || Middleware.includes message "Not found"
       then NotFound
       else if Middleware.includes message
                 "Authentication credentials were not provided"
       then Null
       else Null
   end).

End WithPayload.

Arguments FetchApiOptions : clear implicits.
Arguments Request : clear implicits.
Arguments AxiosOutcome : clear implicits.
Arguments Result : clear implicits.
Arguments Fetched : clear implicits.

End Api.

(** ** The answer handler of the quiz-attempt form *)

Module AttemptForm.

Import Attempt.

(** The value an input hands over: an option id or a boolean. *)
Inductive Value :=
| Num (n : N)
| Bool (b : bool).

(** l.indexOf(x); [None] is -1. *)
Fixpoint indexOf (l : list N) (x : N) : option nat :=
  match l with
  | [] => None
  | y :: l' => if N.eqb y x then Some 0%nat else S <$> indexOf l' x
  end.

(** The multiple-choice branch: deselect with splice(index, 1) when the
    option is there, select with push otherwise. *)
Definition toggle (l : list N) (optionId : N) : list N :=
  match indexOf l optionId with
  | Some index => delete index l
  | None => l ++ [optionId]
  end.

(** handleAnswerChange(questionId, questionType, value, isMultiChoice) as
    the state update it passes to setAnswers. The casts [value as boolean]
    and [value as number] are checked: the update is defined where they
    hold, as in every call the form makes. *)
Definition handleAnswerChange (questionId : N) (questionType : QuestionType)
    (value : Value) (isMultiChoice : bool) (prev : AnswersState)
  : option AnswersState :=
  let currentQuestionAnswers :=
    default {| selectedOptionIds := None; selectedAnswerBool := None |}
            (prev !! questionId) in
  let newSelectedOptionIds :=
    default [] (selectedOptionIds currentQuestionAnswers) in
  match questionType, value with
  | TRUE_FALSE, Bool b =>
      Some (<[questionId := {| selectedOptionIds := Some [];
                               selectedAnswerBool := Some b |}]> prev)
  | TRUE_FALSE, Num _ => None
  | _, Num optionId =>
      Some (<[questionId :=
                {| selectedOptionIds :=
                     Some (if isMultiChoice
                           then toggle newSelectedOptionIds optionId
                           else [optionId]);
                   selectedAnswerBool := None |}]> prev)
  | _, Bool _ => None
  end.

(** The inputs the form renders for a question. *)
Inductive Input :=
| RadioBool (b : bool)
| OptionInput (optionId : N).

Definition is_multi (q : Question.t) : bool :=
  match Question.question_type q with
  | MULTI_MCQ => true
  | _ => false
  end.

(** The onChange handler of an input of question [q]. A TRUE_FALSE question
    has the two boolean radios, the other questions one input per option. *)
Definition onChange (q : Question.t) (input : Input) (prev : AnswersState)
  : option AnswersState :=
  match Question.question_type q, input with
  | TRUE_FALSE, RadioBool b =>
      handleAnswerChange (Question.id q) (Question.question_type q)
                         (Bool b) false prev
  | (SINGLE_MCQ | MULTI_MCQ), OptionInput optionId =>
      handleAnswerChange (Question.id q) (Question.question_type q)
                         (Num optionId) (is_multi q) prev
  | _, _ => None
  end.

(** answers[question.id]?.selectedOptionIds?.includes(option.id) *)
Definition checked (answers' : AnswersState) (q : Question.t) (optionId : N)
  : bool :=
  match answers' !! Question.id q with
  | Some ans =>
      match selectedOptionIds ans with
      | Some l => bool_decide (optionId ∈ l)
      | None => false
      end
  | None => false
  end.

(** A recorded answer is tidy when its option ids are a list without
    repetition, empty when a boolean is recorded. *)
Definition tidy (ans : Answer) : Prop :=
  ∃ l, selectedOptionIds ans = Some l ∧ NoDup l
       ∧ (selectedAnswerBool ans ≠ None → l = []).

(** The states of the form: the initial empty object, and what the handlers
    of the inputs of the quiz's questions make of a state. *)
Inductive reachable (quiz : Quiz.t) : AnswersState → Prop :=
| reach_init : reachable quiz ∅
| reach_change s q input s' :
    reachable quiz s →
    q ∈ Quiz.questions quiz →
    onChange q input s = Some s' →
    reachable quiz s'.

End AttemptForm.

(** ** Who may do what on the pages *)

Module Pages.

Import Auth(Role, ADMIN, TEACHER, STUDENT, BackendUser).

(** The part of a quiz the pages decide on. *)
Record QuizInfo := {
  teacher : BackendUser;
  is_available_for_submission : bool
}.

(** user?.role === r *)
Definition has_role (user : option BackendUser) (r : Role) : bool :=
  match user with
  | Some u =>
      match Auth.role u, r with
      | ADMIN, ADMIN | TEACHER, TEACHER | STUDENT, STUDENT => true
      | _, _ => false
      end
  | None => false
  end.

(** user?.id === quiz.teacher.id *)
Definition isOwner (user : option BackendUser) (quiz : QuizInfo) : bool :=
  match user with
  | Some u => N.eqb (Auth.id u) (Auth.id (teacher quiz))
  | None => false
  end.

(** QuizDetailPage: canAttempt *)
Definition canAttempt (user : option BackendUser) (quiz : QuizInfo) : bool :=
  let isStudent := has_role user STUDENT in
  let isMarked := match user with
                  | Some u => Auth.is_marked u
                  | None => false
                  end in
  isStudent && negb isMarked && is_available_for_submission quiz.

(** QuizDetailPage: canManage *)
Definition canManage (user : option BackendUser) (quiz : QuizInfo) : bool :=
  let isAdmin := has_role user ADMIN in
  let isTeacher := has_role user TEACHER in
  (isTeacher && isOwner user quiz) || isAdmin.

(** QuizzesPage: showAdminControls for one quiz of the list *)
Definition showAdminControls (user : option BackendUser) (quiz : QuizInfo)
  : bool :=
  let canManageQuizzes := has_role user ADMIN || has_role user TEACHER in
  let isAdmin := has_role user ADMIN in
  canManageQuizzes && (isAdmin || isOwner user quiz).

(** NewQuizPage: [true] when the page redirects to /login?error=Unauthorized
    instead of rendering the form. *)
Definition newQuizPage_redirects (user : option BackendUser) : bool :=
  match user with
  | None => true
  | Some _ => negb (has_role user TEACHER) && negb (has_role user ADMIN)
  end.

(** getServerSession(authOptions) as the pages call it: without a token in
    the cookie there is no session; with one, NextAuth runs the jwt callback
    on it, with no user and no account, and then the session callback on
    the record the jwt callback returns. *)
Definition getServerSession (be : Auth.Backend)
    (session0 : Session.DefaultSession) (token : option Auth.CustomJWT)
    (w : Auth.World) : option Session.CustomSession :=
  (λ t, Session.session session0 (Auth.jwt be t None None w).1) <$> token.

(** The token of the jwt callback as the middleware reads it. *)
Definition middleware_token (token : Auth.CustomJWT) : Middleware.CustomJWT :=
  {| Middleware.user :=
       (λ u, {| Middleware.role := Some (Auth.role u) |}) <$> Auth.user token |}.

End Pages.

(** ** The question handlers of the quiz-management form *)

Module Manage.

Import Attempt(QuestionType, SINGLE_MCQ, MULTI_MCQ, TRUE_FALSE).

Record AnswerOptionWritable := {
  option_id : option N;
  option_text : string;
  is_correct : bool
}.

Record QuestionWritable := {
  id : option N;
  question_type : QuestionType;
  text : string;
  points : Z;
  correct_answer_bool : option bool;
  answer_options : list AnswerOptionWritable
}.

Definition initialAnswerOption : AnswerOptionWritable :=
  {| option_id := None; option_text := ""; is_correct := false |}.

(** The question the form starts with; what addQuestion appends later is a
    copy sharing its answer_options array with it. *)
Definition initialQuestion : QuestionWritable :=
  {| id := None; question_type := SINGLE_MCQ; text := ""; points := 1;
     correct_answer_bool := None; answer_options := [initialAnswerOption] |}.

(** xs.filter((_, i) => i !== index) *)
Definition remove_at {A} (index : nat) (xs : list A) : list A :=
  (filter (λ p, p.1 ≠ index) (imap (λ i x, (i, x)) xs)).*2.

(** removeQuestion(index), run on the state that was rendered
    (quizData.questions and prev.questions are the same array): the alert
    leaves the questions as they are. *)
Definition removeQuestion (index : nat) (questions : list QuestionWritable)
  : list QuestionWritable :=
  if (length questions <=? 1)%nat then questions
  else remove_at index questions.

(** The field and value pairs handleQuestionChange is called with. *)
Inductive QuestionField :=
| set_question_type (v : QuestionType)
| set_text (v : string)
| set_points (v : Z)
| set_correct_answer_bool (v : bool).

Definition assign (field : QuestionField) (q : QuestionWritable)
  : QuestionWritable :=
  match field with
  | set_question_type v =>
      {| id := id q; question_type := v; text := text q; points := points q;
         correct_answer_bool := correct_answer_bool q;
         answer_options := answer_options q |}
  | set_text v =>
      {| id := id q; question_type := question_type q; text := v;
         points := points q; correct_answer_bool := correct_answer_bool q;
         answer_options := answer_options q |}
  | set_points v =>
      {| id := id q; question_type := question_type q; text := text q;
         points := v; correct_answer_bool := correct_answer_bool q;
         answer_options := answer_options q |}
  | set_correct_answer_bool v =>
      {| id := id q; question_type := question_type q; text := text q;
         points := points q; correct_answer_bool := Some v;
         answer_options := answer_options q |}
  end.

(** The reset of the fields that do not fit the new type. *)
Definition reset_incompatible (field : QuestionField) (q : QuestionWritable)
  : QuestionWritable :=
  match field with
  | set_question_type TRUE_FALSE =>
      {| id := id q; question_type := question_type q; text := text q;
         points := points q;
         correct_answer_bool :=
           Some (default false (correct_answer_bool q));
         answer_options := [] |}
  | set_question_type _ =>
      {| id := id q; question_type := question_type q; text := text q;
         points := points q;
         correct_answer_bool := None;
         answer_options :=
           if (length (answer_options q) =? 0)%nat
           then [initialAnswerOption]
           else answer_options q |}
  | _ => q
  end.

(** handleQuestionChange(index, field, value), as the new value of
    quizData.questions; [None] when the assignment to newQuestions[index]
    throws because there is no such question. *)
Definition handleQuestionChange (index : nat) (field : QuestionField)
    (questions : list QuestionWritable) : option (list QuestionWritable) :=
  match questions !! index with
  | Some q =>
      Some (<[index := reset_incompatible field (assign field q)]> questions)
  | None => None
  end.

(** t === "TRUE_FALSE" *)
Definition is_true_false (t : QuestionType) : bool :=
  match t with
  | TRUE_FALSE => true
  | _ => false
  end.

(** removeAnswerOption(qIndex, aIndex); [None] when reading
    newQuestions[qIndex].answer_options throws. *)
Definition removeAnswerOption (qIndex aIndex : nat)
    (questions : list QuestionWritable) : option (list QuestionWritable) :=
  match questions !! qIndex with
  | Some q =>
      if (length (answer_options q) <=? 1)%nat
         && negb (is_true_false (question_type q))
      then Some questions
      else Some (<[qIndex :=
                     {| id := id q; question_type := question_type q;
                        text := text q; points := points q;
                        correct_answer_bool := correct_answer_bool q;
                        answer_options :=
                          remove_at aIndex (answer_options q) |}]> questions)
  | None => None
  end.

(** [isEditMode && x.id && { id: x.id }]: the id is kept in edit mode when
    it is truthy. *)
Definition kept_id (isEditMode : bool) (i : option N) : option N :=
  if isEditMode then
    match i with
    | Some n => if N.eqb n 0 then None else Some n
    | None => None
    end
  else None.

(** The callback handleSubmit maps over the options of a question. *)
Definition submitOption (isEditMode : bool) (a : AnswerOptionWritable)
  : AnswerOptionWritable :=
  {| option_id := kept_id isEditMode (option_id a);
     option_text := option_text a;
     is_correct := is_correct a |}.

(** The callback handleSubmit maps over quizData.questions. *)
Definition submitQuestion (isEditMode : bool) (q : QuestionWritable)
  : QuestionWritable :=
  {| id := kept_id isEditMode (id q);
     question_type := question_type q;
     text := text q;
     points := points q;
     correct_answer_bool :=
       match question_type q with
       | TRUE_FALSE => correct_answer_bool q
       | _ => None
       end;
     answer_options :=
       match question_type q with
       | TRUE_FALSE => []
       | _ => submitOption isEditMode <$> answer_options q
       end |}.

(** What the handlers keep: a question that is not TRUE_FALSE has an answer
    option. *)
Definition has_option (q : QuestionWritable) : Prop :=
  question_type q ≠ TRUE_FALSE → answer_options q ≠ [].

End Manage.

(** ** handleSubmit of the attempt form, from its request to its end *)

Module Submit.

(** How a run of handleSubmit ends: with an error message on the form or
    with router.push(path). *)
Inductive Finished :=
| Shown (error : string)
| Pushed (path : string).

(** (result as any)?.id: the id on the response body, if there is one; an
    id is truthy when it is not 0. *)
Definition truthy_id (i : option N) : bool :=
  match i with
  | Some n => negb (N.eqb n 0)
  | None => false
  end.

(** handleSubmit as a whole: the request it sends through fetchApi, if any,
    and how it ends. *)
Definition handleSubmit
    (transport : Api.Request Attempt.QuizSubmission
                 → Api.AxiosOutcome (option N))
    (session : option Attempt.Session) (quiz : Attempt.Quiz.t)
    (answers' : gmap N Attempt.Answer)
  : option (Api.Request Attempt.QuizSubmission) * Finished :=
  match Attempt.handleSubmit session quiz answers' with
  | Attempt.SetError message => (None, Shown message)
  | Attempt.Post quiz_id bearer payload =>
      let '(sent, result) :=
        Api.fetchApi transport
          ("/quizzes/" +:+ Api.decimal quiz_id +:+ "/submit/")
          {| Api.accessToken := Some bearer; Api.method := Some "POST";
             Api.data := Some payload; Api.headers := ∅ |} in
      (sent,
       match result with
       | Api.Returns attemptId =>
           if truthy_id attemptId
           then Pushed ("/attempts/" +:+ Api.decimal (default 0%N attemptId))
           else Pushed "/attempts"
       | Api.ThrowsError message =>
           Shown (if Js.truthy_str (Some message) then message
                  else "Failed to submit quiz attempt.")
       end)
  end.

End Submit.

(** ** Concrete tokens, backends and worlds used in the examples *)

Module Fixtures.
Import Auth.

Definition alice : BackendUser :=
  {| id := 7; username := "alice"; email := "alice@example.org";
     role := TEACHER; is_marked := false |}.

Definition claims : JWT :=
  {| name := Some "Alice"; jwt_email := Some "alice@example.org";
     picture := None; sub := Some "google-oauth2|7" |}.

(** A signed-in token whose access token ran out at time 1000. *)
Definition expired : CustomJWT :=
  {| base := claims; accessToken := Some "access-1";
     refreshToken := Some "refresh-1"; accessTokenExpires := Some 1000%N;
     user := Some alice; error := None |}.

(** The same token without its refresh token. *)
Definition no_refresh : CustomJWT :=
  {| base := claims; accessToken := Some "access-1";
     refreshToken := None; accessTokenExpires := Some 1000%N;
     user := Some alice; error := None |}.

(** A token whose access token is good until time 900000. *)
Definition fresh : CustomJWT :=
  {| base := claims; accessToken := Some "access-1";
     refreshToken := Some "refresh-1"; accessTokenExpires := Some 900000%N;
     user := Some alice; error := None |}.

(** A backend that rejects every request. *)
Definition rejecting : Backend :=
  {| token_refresh := λ _, None;
     google_callback := λ _ _, None;
     latency := λ _, 40%N |}.

(** A backend that accepts every request and does not rotate refresh
    tokens. *)
Definition accepting : Backend :=
  {| token_refresh := λ _, Some {| access := "access-2"; refresh := None |};
     google_callback := λ _ _,
       Some {| login_access_token := "access-1";
               login_refresh_token := "refresh-1";
               login_user := alice |};
     latency := λ _, 40%N |}.

(** A backend that accepts every request and rotates refresh tokens. *)
Definition rotating : Backend :=
  {| token_refresh := λ _,
       Some {| access := "access-2"; refresh := Some "refresh-2" |};
     google_callback := google_callback accepting;
     latency := λ _, 40%N |}.

Definition google : Account :=
  {| provider := "google"; access_token := Some "g-access";
     id_token := Some "g-id" |}.

End Fixtures.

(** * Properties *)

(** ** The embedded code on a few inputs *)

Example gate_demo_1 :
  Middleware.gate (Middleware.with_role Auth.STUDENT) "/quizzes/12/edit"
  = Middleware.RedirectToUnauthorized.
Proof. vm_compute. reflexivity. Qed.

Example gate_demo_2 :
  Middleware.template "/quizzes/[id]/edit" = Middleware.edit_route.
Proof. vm_compute. reflexivity. Qed.

Example gate_demo_3 :
  Middleware.gate None "/quizzes/new" = Middleware.RedirectToLogin
  ∧ Middleware.gate None "/quizzes" = Middleware.Allow
  ∧ Middleware.gate (Middleware.with_role Auth.STUDENT) "/attempts/3" = Middleware.Allow
  ∧ Middleware.gate (Middleware.with_role Auth.TEACHER) "/quizzes/12/edit" = Middleware.Allow
  ∧ Middleware.gate (Middleware.with_role Auth.STUDENT) "/quizzes/12/edit/x" = Middleware.Allow
  ∧ Middleware.gate None "/quizzes/12/edit/x" = Middleware.RedirectToLogin
  ∧ Middleware.gate None "/quizzes/ab/edit" = Middleware.Allow.
Proof. vm_compute. repeat split. Qed.

Example payload_demo :
  Attempt.answers (Attempt.payload AttemptDemo.quiz3 AttemptDemo.some_answers)
  = [ {| Attempt.question_id := 2; Attempt.selected_option_ids := Some [4%N];
         Attempt.selected_answer_bool := None |};
      {| Attempt.question_id := 7; Attempt.selected_option_ids := None;
         Attempt.selected_answer_bool := Some true |};
      {| Attempt.question_id := 5; Attempt.selected_option_ids := None;
         Attempt.selected_answer_bool := None |} ].
Proof. vm_compute. reflexivity. Qed.

(** ** Truthiness *)

Lemma truthy_str_true (v : option string) :
  Js.truthy_str v = true ↔ ∃ s, v = Some s ∧ s ≠ "".
Proof.
  destruct v as [s|]; simpl.
  - rewrite negb_true_iff, String.eqb_neq. split.
    + intros H. exists s. auto.
    + intros (s' & [= <-] & H). exact H.
  - split; [discriminate | intros (s & [=] & _)].
Qed.

Lemma truthy_num_true (v : option N) :
  Js.truthy_num v = true ↔ ∃ n, v = Some n ∧ n ≠ 0%N.
Proof.
  destruct v as [n|]; simpl.
  - rewrite negb_true_iff, N.eqb_neq. split.
    + intros H. exists n. auto.
    + intros (n' & [= <-] & H). exact H.
  - split; [discriminate | intros (n & [=] & _)].
Qed.

(** ** The Refresh Operator, branch by branch *)

Ltac io_run :=
  unfold mbind, mret, Auth.IO_bind, Auth.IO_ret, Auth.io_bind, Auth.io_ret,
    Auth.post_token_refresh, Auth.post_google_callback, Auth.date_now;
  cbn [fst snd].

Section RefreshOperator.
Import Auth.
Variable be : Backend.


Lemma refresh_rejected (token : CustomJWT) (w : World) (rt : string) :
  refreshToken token = Some rt → rt ≠ "" →
  token_refresh be rt = None →
  refreshAccessToken be token w
  = ({| base := base token;
        accessToken := None;
        refreshToken := None;
        accessTokenExpires := Some 0%N;
        user := user token;
        error := Some RefreshAccessTokenError |},
     sent be (PostTokenRefresh rt) w).
Proof.
  intros Hrt Hne Hbe. unfold refreshAccessToken.
  assert (Js.truthy_str (refreshToken token) = true) as ->
    by (apply truthy_str_true; eauto).
  rewrite Hrt. io_run. cbn. rewrite Hbe. reflexivity.
Qed.

Lemma refresh_accepted (token : CustomJWT) (w : World) (rt : string)
    (data : RefreshData) :
  refreshToken token = Some rt → rt ≠ "" →
  token_refresh be rt = Some data →
  refreshAccessToken be token w
  = ({| base := base token;
        accessToken := Some (access data);
        refreshToken := Js.nullish_or (refresh data) (Some rt);
        accessTokenExpires :=
          Some (clock (sent be (PostTokenRefresh rt) w) + lifetime)%N;
        user := user token;
        error := None |},
     sent be (PostTokenRefresh rt) w).
Proof.
  intros Hrt Hne Hbe. unfold refreshAccessToken.
  assert (Js.truthy_str (refreshToken token) = true) as ->
    by (apply truthy_str_true; eauto).
  rewrite Hrt. io_run. cbn. rewrite Hbe. reflexivity.
Qed.

(** Whenever a refresh token is there, an error tag on the result comes
    without an access token. *)
Lemma refresh_fails_closed (token : CustomJWT) (w : World) :
  Js.truthy_str (refreshToken token) = true →
  error (refreshAccessToken be token w).1 ≠ None →
  accessToken (refreshAccessToken be token w).1 = None.
Proof.
  intros Ht. apply truthy_str_true in Ht as (rt & Hrt & Hne).
  destruct (token_refresh be rt) as [data|] eqn:Hbe.
  - rewrite (refresh_accepted _ _ _ _ Hrt Hne Hbe). cbn. congruence.
  - rewrite (refresh_rejected _ _ _ Hrt Hne Hbe). reflexivity.
Qed.

(** The Identity Exchange never leaves an access token beside an error. *)
Lemma identity_exchange_fails_closed (token : CustomJWT) (acc : Account)
    (w : World) :
  error (identity_exchange be token acc w).1 ≠ None →
  accessToken (identity_exchange be token acc w).1 = None.
Proof.
  unfold identity_exchange. io_run.
  destruct (google_callback be _ _); cbn; congruence.
Qed.

(** The jwt callback keeps the invariant: given a token on which an error
    tag excludes an access token, so is the token it returns. *)
Lemma jwt_fails_closed (token : CustomJWT) (user' : option NextAuthUser)
    (account : option Account) (w : World) :
  (error token ≠ None → accessToken token = None) →
  error (jwt be token user' account w).1 ≠ None →
  accessToken (jwt be token user' account w).1 = None.
Proof.
  intros Hinv.
  assert (error (subsequent be token w).1 ≠ None →
          accessToken (subsequent be token w).1 = None) as Hsub.
  { unfold subsequent. io_run.
    destruct (still_valid token (clock w)); cbn; [exact Hinv|].
    destruct (Js.truthy_str (refreshToken token)) eqn:Ht; cbn; [|reflexivity].
    apply refresh_fails_closed, Ht. }
  unfold jwt. destruct account as [acc|], user' as [u|]; try exact Hsub.
  destruct (String.eqb _ _); [apply identity_exchange_fails_closed | exact Hsub].
Qed.

End RefreshOperator.

(** ** The Session Materializer below its sign-in branch *)

Section Materializer.
Import Auth.
Variable be : Backend.

Lemma jwt_subsequent (token : CustomJWT) (user' : option NextAuthUser)
    (account : option Account) (w : World) :
  initial_sign_in user' account = false →
  jwt be token user' account w = subsequent be token w.
Proof.
  unfold initial_sign_in, jwt.
  destruct account, user'; intros H; try discriminate; reflexivity.
Qed.

Lemma subsequent_valid (token : CustomJWT) (w : World) :
  still_valid token (clock w) = true → subsequent be token w = (token, w).
Proof.
  unfold subsequent. io_run. intros ->. reflexivity.
Qed.

Lemma subsequent_delegates (token : CustomJWT) (w : World) :
  still_valid token (clock w) = false →
  Js.truthy_str (refreshToken token) = true →
  subsequent be token w = refreshAccessToken be token w.
Proof.
  unfold subsequent. io_run. intros -> ->. reflexivity.
Qed.

Lemma subsequent_no_refresh_token (token : CustomJWT) (w : World) :
  still_valid token (clock w) = false →
  Js.truthy_str (refreshToken token) = false →
  subsequent be token w
  = ({| base := base token;
        accessToken := None;
        refreshToken := refreshToken token;
        accessTokenExpires := None;
        user := None;
        error := Some MissingRefreshTokenError |}, w).
Proof.
  unfold subsequent. io_run. intros -> ->. reflexivity.
Qed.

(** What the callback returns when it delegates and the refresh fails: the
    Refresh Operator's record as it is, the user included. *)
Lemma jwt_refresh_rejected (token : CustomJWT) (user' : option NextAuthUser)
    (account : option Account) (w : World) (rt : string) :
  initial_sign_in user' account = false →
  still_valid token (clock w) = false →
  refreshToken token = Some rt → rt ≠ "" →
  token_refresh be rt = None →
  (jwt be token user' account w).1
  = {| base := base token;
       accessToken := None;
       refreshToken := None;
       accessTokenExpires := Some 0%N;
       user := user token;
       error := Some RefreshAccessTokenError |}.
Proof.
  intros Hi Hv Hrt Hne Hbe.
  rewrite jwt_subsequent by exact Hi.
  rewrite subsequent_delegates; [| exact Hv | apply truthy_str_true; eauto].
  rewrite (refresh_rejected be _ _ _ Hrt Hne Hbe). reflexivity.
Qed.

End Materializer.

(** ** Strings *)

Lemma str_app_cons (c : ascii) (s t : string) :
  String c s +:+ t = String c (s +:+ t).
Proof. reflexivity. Qed.

Lemma str_app_nil_r (s : string) : s +:+ "" = s.
Proof.
  induction s as [|c s IH]; [reflexivity|].
  rewrite str_app_cons, IH. reflexivity.
Qed.

Lemma str_app_assoc (s t u : string) : (s +:+ t) +:+ u = s +:+ (t +:+ u).
Proof.
  induction s as [|c s IH]; [reflexivity|].
  rewrite !str_app_cons, IH. reflexivity.
Qed.

Lemma str_app_eq_nil (s t : string) : s +:+ t = "" → s = "" ∧ t = "".
Proof.
  destruct s as [|c s]; [intros H; split; [reflexivity | exact H]|].
  rewrite str_app_cons. discriminate.
Qed.

Lemma startsWith_spec (pathname p : string) :
  Middleware.startsWith pathname p = true ↔ ∃ rest, pathname = p +:+ rest.
Proof.
  unfold Middleware.startsWith. revert pathname.
  induction p as [|a p IH]; intros pathname.
  - split; [intros _; exists pathname; reflexivity|].
    intros _. destruct pathname; reflexivity.
  - destruct pathname as [|b pathname]; cbn [String.prefix].
    + split; [discriminate|]. intros [rest H]. rewrite str_app_cons in H.
      discriminate.
    + destruct (ascii_dec a b) as [->|Hne].
      * rewrite IH. split; intros [rest H]; exists rest.
        -- rewrite str_app_cons, H. reflexivity.
        -- rewrite str_app_cons in H. congruence.
      * split; [discriminate|]. intros [rest H].
        rewrite str_app_cons in H. congruence.
Qed.

(** ** The matcher computes the denotation *)

Section RegexFacts.
Import Regex.

Lemma matches_void (s : string) : matches Void s ↔ False.
Proof. split; [inversion 1 | tauto]. Qed.

Lemma matches_eps (s : string) : matches Eps s ↔ s = "".
Proof. split; [inversion 1; reflexivity | intros ->; constructor]. Qed.

Lemma matches_chr (c : ascii) (s : string) :
  matches (Chr c) s ↔ s = String c "".
Proof. split; [inversion 1; reflexivity | intros ->; constructor]. Qed.

Lemma matches_digit (s : string) :
  matches Digit s ↔ ∃ c, s = String c "" ∧ is_digit c = true.
Proof.
  split.
  - inversion 1; subst. eauto.
  - intros (c & -> & H). constructor. exact H.
Qed.

Lemma matches_cat (r1 r2 : t) (s : string) :
  matches (Cat r1 r2) s ↔
  ∃ s1 s2, s = s1 +:+ s2 ∧ matches r1 s1 ∧ matches r2 s2.
Proof.
  split.
  - inversion 1; subst. eauto.
  - intros (s1 & s2 & -> & H1 & H2). constructor; assumption.
Qed.

Lemma matches_alt (r1 r2 : t) (s : string) :
  matches (Alt r1 r2) s ↔ matches r1 s ∨ matches r2 s.
Proof.
  split.
  - inversion 1; subst; auto.
  - intros [H|H]; [apply m_alt_l | apply m_alt_r]; exact H.
Qed.

Lemma nullable_spec (r : t) : nullable r = true ↔ matches r "".
Proof.
  split.
  - induction r; cbn [nullable]; intros H; try discriminate.
    + constructor.
    + apply andb_true_iff in H as [H1 H2].
      apply (m_cat r1 r2 "" ""); auto.
    + apply orb_true_iff in H as [H|H]; [apply m_alt_l | apply m_alt_r]; auto.
    + constructor.
  - intros H. remember "" as s eqn:E.
    induction H; cbn [nullable]; try discriminate; try reflexivity.
    + apply str_app_eq_nil in E as [-> ->].
      rewrite IHmatches1, IHmatches2; reflexivity.
    + rewrite IHmatches by exact E. reflexivity.
    + rewrite IHmatches by exact E. apply orb_true_r.
Qed.

(** A non-empty string in r* starts with a non-empty string in r. *)
Lemma star_cons (r : t) (a : ascii) (s : string) :
  matches (Star r) (String a s) →
  ∃ s1 s2, s = s1 +:+ s2 ∧ matches r (String a s1) ∧ matches (Star r) s2.
Proof.
  intros H. remember (Star r) as r' eqn:Er. remember (String a s) as s' eqn:Es.
  revert s Es.
  induction H; intros s0 Es; try discriminate.
  injection Er as ->.
  destruct s1 as [|b s1].
  - apply IHmatches2; [reflexivity | exact Es].
  - rewrite str_app_cons in Es. injection Es as Hb Hs. subst b s0.
    exists s1, s2. auto.
Qed.

Lemma deriv_spec (a : ascii) (r : t) (s : string) :
  matches (deriv a r) s ↔ matches r (String a s).
Proof.
  revert s. induction r as [| |c| |r1 IH1 r2 IH2|r1 IH1 r2 IH2|r IH];
    intros s; cbn [deriv].
  - rewrite !matches_void. tauto.
  - rewrite matches_void, matches_eps. split; [tauto | discriminate].
  - rewrite matches_chr. destruct (Ascii.eqb_spec a c) as [->|Hne].
    + rewrite matches_eps. split; [intros ->; reflexivity | congruence].
    + rewrite matches_void. split; [tauto | congruence].
  - rewrite matches_digit. destruct (is_digit a) eqn:Hd.
    + rewrite matches_eps. split; [intros ->; eauto | intros (c & [= _ ->] & _)].
      reflexivity.
    + rewrite matches_void. split; [tauto|].
      intros (c & [= <- _] & H). congruence.
  - assert (matches (Cat (deriv a r1) r2) s ↔
            ∃ s1 s2, s = s1 +:+ s2 ∧ matches r1 (String a s1) ∧ matches r2 s2)
      as Hleft.
    { rewrite matches_cat. split; intros (s1 & s2 & E & H1 & H2);
        exists s1, s2; repeat split; auto; apply IH1; exact H1. }
    rewrite (matches_cat r1 r2). destruct (nullable r1) eqn:Hn.
    + rewrite matches_alt, Hleft, IH2. split.
      * intros [(s1 & s2 & -> & H1 & H2) | H].
        -- exists (String a s1), s2. rewrite str_app_cons. auto.
        -- exists "", (String a s). apply nullable_spec in Hn. auto.
      * intros (s1 & s2 & E & H1 & H2). destruct s1 as [|b s1].
        -- right. cbn in E. rewrite E. exact H2.
        -- left. rewrite str_app_cons in E. injection E as Hb Hs. subst b s.
           eauto.
    + rewrite Hleft. split.
      * intros (s1 & s2 & -> & H1 & H2).
        exists (String a s1), s2. rewrite str_app_cons. auto.
      * intros (s1 & s2 & E & H1 & H2). destruct s1 as [|b s1].
        -- apply nullable_spec in H1. congruence.
        -- rewrite str_app_cons in E. injection E as Hb Hs. subst b s.
           eauto.
  - rewrite !matches_alt, IH1, IH2. tauto.
  - rewrite matches_cat. split.
    + intros (s1 & s2 & -> & H1 & H2). apply IH in H1.
      rewrite <- str_app_cons. constructor; assumption.
    + intros H. apply star_cons in H as (s1 & s2 & -> & H1 & H2).
      exists s1, s2. rewrite IH. auto.
Qed.

Lemma test_whole_spec (r : t) (s : string) :
  test_whole r s = true ↔ matches r s.
Proof.
  revert r. induction s as [|a s IH]; intros r; cbn [test_whole].
  - apply nullable_spec.
  - rewrite IH. apply deriv_spec.
Qed.

Lemma test_start_spec (r : t) (s : string) :
  test_start r s = true ↔ ∃ p rest, s = p +:+ rest ∧ matches r p.
Proof.
  revert r. induction s as [|a s IH]; intros r; cbn [test_start].
  - rewrite orb_false_r, nullable_spec. split.
    + intros H. exists "", "". auto.
    + intros (p & rest & E & H). symmetry in E.
      apply str_app_eq_nil in E as [-> _]. exact H.
  - rewrite orb_true_iff, nullable_spec, IH. split.
    + intros [H | (p & rest & -> & H)].
      * exists "", (String a s). auto.
      * exists (String a p), rest. rewrite str_app_cons, <- deriv_spec. auto.
    + intros (p & rest & E & H). destruct p as [|b p].
      * left. exact H.
      * right. rewrite str_app_cons in E. injection E as Hb Hs. subst b s.
        exists p, rest. rewrite deriv_spec. auto.
Qed.

Lemma test_whole_start (r : t) (s : string) :
  test_whole r s = true → test_start r s = true.
Proof.
  rewrite test_whole_spec, test_start_spec. intros H.
  exists s, "". rewrite str_app_nil_r. auto.
Qed.

Lemma matches_lit (w : string) (r : t) (s : string) :
  matches (lit w r) s ↔ ∃ s', s = w +:+ s' ∧ matches r s'.
Proof.
  revert s. induction w as [|c w IH]; intros s; cbn [lit].
  - split; [intros H; exists s; auto | intros (s' & -> & H); exact H].
  - rewrite matches_cat. split.
    + intros (s1 & s2 & -> & H1 & H2). apply matches_chr in H1 as ->.
      apply IH in H2 as (s' & -> & H2). exists s'. auto.
    + intros (s' & -> & H). exists (String c ""), (w +:+ s').
      rewrite matches_chr, IH. eauto.
Qed.

Lemma matches_star_digit (s : string) :
  matches (Star Digit) s ↔ all_digits s = true.
Proof.
  split.
  - intros H. remember (Star Digit) as r eqn:Er.
    induction H; try discriminate; [reflexivity|].
    injection Er as ->. apply matches_digit in H as (c & -> & Hc).
    rewrite str_app_cons. cbn [all_digits]. rewrite Hc.
    apply IHmatches2. reflexivity.
  - induction s as [|c s IH]; cbn [all_digits]; [constructor|].
    intros H. apply andb_true_iff in H as [Hc Hs].
    apply (m_star_app Digit (String c "") s); [constructor; exact Hc | auto].
Qed.

(** \d+ denotes the non-empty strings of decimal digits. *)
Lemma matches_plus_digit (s : string) :
  matches (Plus Digit) s ↔ s ≠ "" ∧ all_digits s = true.
Proof.
  unfold Plus. rewrite matches_cat. split.
  - intros (s1 & s2 & -> & H1 & H2).
    apply matches_digit in H1 as (c & -> & Hc).
    apply matches_star_digit in H2. rewrite str_app_cons.
    split; [discriminate|]. cbn [all_digits]. rewrite Hc. exact H2.
  - intros [Hne H]. destruct s as [|c s]; [congruence|].
    cbn [all_digits] in H. apply andb_true_iff in H as [Hc Hs].
    exists (String c ""), s. rewrite matches_digit, matches_star_digit. eauto.
Qed.

End RegexFacts.

(** ** Claims on the token lifecycle *)

(** C1. A record returned with an error tag has no access token, for every
    record of the Refresh Operator invoked as the program invokes it, on a
    record with a refresh token (its one call is behind the caller's test of
    the refresh token, so that its own guard for a missing one is never
    reached), and for every record of the Identity Exchange. Put on the jwt
    callback: whenever a run has sent a request, which is when it has
    invoked one of the two, an error tag on the returned record excludes an
    access token. *)
Theorem C1_error_tag_excludes_access_token
    (be : Auth.Backend) (token : Auth.CustomJWT) (acc : Auth.Account)
    (w : Auth.World) :
  (Js.truthy_str (Auth.refreshToken token) = true →
   Auth.error (Auth.refreshAccessToken be token w).1 ≠ None →
   Auth.accessToken (Auth.refreshAccessToken be token w).1 = None)
  ∧ (Auth.error (Auth.identity_exchange be token acc w).1 ≠ None →
     Auth.accessToken (Auth.identity_exchange be token acc w).1 = None)
  ∧ ∀ (user' : option Auth.NextAuthUser) (account : option Auth.Account),
      (Auth.jwt be token user' account w).2 ≠ w →
      Auth.error (Auth.jwt be token user' account w).1 ≠ None →
      Auth.accessToken (Auth.jwt be token user' account w).1 = None.
Proof.
  split; [apply refresh_fails_closed|].
  split; [apply identity_exchange_fails_closed|].
  assert ((Auth.subsequent be token w).2 ≠ w →
          Auth.error (Auth.subsequent be token w).1 ≠ None →
          Auth.accessToken (Auth.subsequent be token w).1 = None) as Hsub.
  { destruct (Auth.still_valid token (Auth.clock w)) eqn:Hv.
    - rewrite subsequent_valid by exact Hv. intros H. contradiction.
    - destruct (Js.truthy_str (Auth.refreshToken token)) eqn:Ht.
      + rewrite subsequent_delegates by assumption. intros _.
        apply refresh_fails_closed, Ht.
      + rewrite subsequent_no_refresh_token by assumption.
        intros H. contradiction. }
  intros user' account. unfold Auth.jwt.
  destruct account as [a|], user' as [u|]; try exact Hsub.
  destruct (String.eqb _ _); [|exact Hsub].
  intros _. apply identity_exchange_fails_closed.
Qed.

Lemma C1_witness :
  Auth.accessToken
    (Auth.refreshAccessToken Fixtures.rejecting Fixtures.expired
                             (Auth.at_time 5000)).1 = None
  ∧ Auth.accessToken
      (Auth.identity_exchange Fixtures.rejecting Fixtures.fresh
                              Fixtures.google (Auth.at_time 100)).1 = None
  ∧ Auth.accessToken
      (Auth.jwt Fixtures.rejecting Fixtures.expired None None
                (Auth.at_time 5000)).1 = None.
Proof.
  destruct (C1_error_tag_excludes_access_token Fixtures.rejecting
              Fixtures.expired Fixtures.google (Auth.at_time 5000))
    as (Hrefresh & _ & Hjwt).
  destruct (C1_error_tag_excludes_access_token Fixtures.rejecting
              Fixtures.fresh Fixtures.google (Auth.at_time 100))
    as (_ & Hexchange & _).
  split; [|split].
  - apply Hrefresh; [reflexivity | discriminate].
  - apply Hexchange. discriminate.
  - apply (Hjwt None None); discriminate.
Defined.



(** C3. When the jwt callback delegates to the Refresh Operator and the
    backend rejects the refresh, the returned record carries the operator's
    tag RefreshAccessTokenError, but the user is still on it. *)
Theorem C3_refresh_failure_keeps_user :
  Auth.still_valid Fixtures.expired 5000 = false
  ∧ Auth.error
      (Auth.jwt Fixtures.rejecting Fixtures.expired None None
                (Auth.at_time 5000)).1
    = Some Auth.RefreshAccessTokenError
  ∧ Auth.user
      (Auth.jwt Fixtures.rejecting Fixtures.expired None None
                (Auth.at_time 5000)).1
    = Some Fixtures.alice.
Proof. repeat split; reflexivity. Qed.

(** C4. On a record with a refresh token, when the exchange fails (the
    request throws: network error or rejection by the backend),
    refreshAccessToken returns a record tagged RefreshAccessTokenError whose
    accessToken and refreshToken are gone and whose accessTokenExpires is
    reset to 0 (no expiry for the jwt callback, which tests it for
    truthiness); the user and the remaining claims are those of the input. *)
Theorem C4_refresh_failure_clears_credentials
    (be : Auth.Backend) (token : Auth.CustomJWT) (w : Auth.World)
    (rt : string) :
  Auth.refreshToken token = Some rt → rt ≠ "" →
  Auth.token_refresh be rt = None →
  let r := (Auth.refreshAccessToken be token w).1 in
  Auth.error r = Some Auth.RefreshAccessTokenError
  ∧ Auth.accessToken r = None
  ∧ Auth.refreshToken r = None
  ∧ Auth.accessTokenExpires r = Some 0%N
  ∧ Js.truthy_num (Auth.accessTokenExpires r) = false
  ∧ Auth.user r = Auth.user token
  ∧ Auth.base r = Auth.base token.
Proof.
  intros Hrt Hne Hbe r. subst r.
  rewrite (refresh_rejected be token w rt Hrt Hne Hbe).
  repeat split; reflexivity.
Qed.

Lemma C4_witness :
  let r := (Auth.refreshAccessToken Fixtures.rejecting Fixtures.expired
                                    (Auth.at_time 5000)).1 in
  Auth.error r = Some Auth.RefreshAccessTokenError
  ∧ Auth.accessToken r = None
  ∧ Auth.refreshToken r = None
  ∧ Auth.accessTokenExpires r = Some 0%N
  ∧ Js.truthy_num (Auth.accessTokenExpires r) = false
  ∧ Auth.user r = Some Fixtures.alice
  ∧ Auth.base r = Fixtures.claims.
Proof.
  apply (C4_refresh_failure_clears_credentials
           Fixtures.rejecting Fixtures.expired (Auth.at_time 5000) "refresh-1");
    [reflexivity | discriminate | reflexivity].
Defined.

(** C8. On a record with a refresh token, invoked as the jwt callback
    invokes it (after its test has found the access token not valid any
    more), when the backend accepts the exchange, refreshAccessToken sends
    exactly that one request and returns a record with no error tag, the
    access token of the response, the refresh token of the response when it
    has one and the old refresh token otherwise, and an expiry equal to the
    time read after the exchange plus the fixed lifetime of 300000 ms, which
    is strictly later than the expiry of the input record; the user is
    kept. Outside a sign-in this record is what the jwt callback returns. *)
Theorem C8_refresh_success
    (be : Auth.Backend) (token : Auth.CustomJWT) (w : Auth.World)
    (rt : string) (data : Auth.RefreshData) :
  Auth.still_valid token (Auth.clock w) = false →
  Auth.refreshToken token = Some rt → rt ≠ "" →
  Auth.token_refresh be rt = Some data →
  let r := (Auth.refreshAccessToken be token w).1 in
  let w' := (Auth.refreshAccessToken be token w).2 in
  Auth.error r = None
  ∧ Auth.accessToken r = Some (Auth.access data)
  ∧ Auth.refreshToken r
    = Some (match Auth.refresh data with Some rt' => rt' | None => rt end)
  ∧ Auth.accessTokenExpires r = Some (Auth.clock w' + 300000)%N
  ∧ Auth.user r = Auth.user token
  ∧ Auth.requests w' = Auth.requests w ++ [Auth.PostTokenRefresh rt]
  ∧ (∀ e, Auth.accessTokenExpires token = Some e →
          (e < Auth.clock w' + 300000)%N)
  ∧ ∀ (user' : option Auth.NextAuthUser) (account : option Auth.Account),
      Auth.initial_sign_in user' account = false →
      Auth.jwt be token user' account w = Auth.refreshAccessToken be token w.
Proof.
  intros Hv Hrt Hne Hbe r w'. subst r w'.
  assert (∀ user' account,
            Auth.initial_sign_in user' account = false →
            Auth.jwt be token user' account w
            = Auth.refreshAccessToken be token w) as Hjwt.
  { intros user' account Hi. rewrite jwt_subsequent by exact Hi.
    apply subsequent_delegates; [exact Hv|]. apply truthy_str_true. eauto. }
  rewrite (refresh_accepted be token w rt data Hrt Hne Hbe) in Hjwt |- *.
  cbn [fst snd Auth.error Auth.accessToken Auth.refreshToken
       Auth.accessTokenExpires Auth.user Auth.sent Auth.clock Auth.requests].
  repeat split.
  - destruct (Auth.refresh data); reflexivity.
  - intros e He. unfold Auth.still_valid in Hv. rewrite He in Hv.
    cbn [Js.truthy_num] in Hv.
    apply andb_false_iff in Hv as [Hz|Hlt].
    + apply negb_false_iff, N.eqb_eq in Hz. lia.
    + apply N.ltb_ge in Hlt. lia.
  - exact Hjwt.
Qed.

Lemma C8_witness :
  let r := (Auth.refreshAccessToken Fixtures.rotating Fixtures.expired
                                    (Auth.at_time 5000)).1 in
  let w' := (Auth.refreshAccessToken Fixtures.rotating Fixtures.expired
                                     (Auth.at_time 5000)).2 in
  Auth.error r = None
  ∧ Auth.accessToken r = Some "access-2"
  ∧ Auth.refreshToken r = Some "refresh-2"
  ∧ Auth.accessTokenExpires r = Some (Auth.clock w' + 300000)%N
  ∧ Auth.user r = Some Fixtures.alice
  ∧ Auth.requests w' = [] ++ [Auth.PostTokenRefresh "refresh-1"]
  ∧ (∀ e, Some 1000%N = Some e → (e < Auth.clock w' + 300000)%N)
  ∧ ∀ (user' : option Auth.NextAuthUser) (account : option Auth.Account),
      Auth.initial_sign_in user' account = false →
      Auth.jwt Fixtures.rotating Fixtures.expired user' account
               (Auth.at_time 5000)
      = Auth.refreshAccessToken Fixtures.rotating Fixtures.expired
                                (Auth.at_time 5000).
Proof.
  apply (C8_refresh_success Fixtures.rotating Fixtures.expired
           (Auth.at_time 5000) "refresh-1"
           {| Auth.access := "access-2"; Auth.refresh := Some "refresh-2" |});
    [reflexivity | reflexivity | discriminate | reflexivity].
Defined.

(** C9. When the jwt callback is run outside an initial sign-in on a record
    that has an access token and whose accessTokenExpires is later than the
    current time, it returns the record as it is and sends no request: the
    world, with its list of requests, is as before. *)
Theorem C9_valid_token_returned_unchanged
    (be : Auth.Backend) (token : Auth.CustomJWT)
    (user' : option Auth.NextAuthUser) (account : option Auth.Account)
    (w : Auth.World) (e : N) :
  Auth.initial_sign_in user' account = false →
  Js.truthy_str (Auth.accessToken token) = true →
  Auth.accessTokenExpires token = Some e →
  (Auth.clock w < e)%N →
  Auth.jwt be token user' account w = (token, w).
Proof.
  intros Hi _ He Hlt.
  rewrite jwt_subsequent by exact Hi.
  apply subsequent_valid. unfold Auth.still_valid. rewrite He. cbn.
  apply andb_true_intro. split.
  - apply negb_true_iff, N.eqb_neq. lia.
  - apply N.ltb_lt, Hlt.
Qed.

Lemma C9_witness :
  Auth.jwt Fixtures.rejecting Fixtures.fresh None None (Auth.at_time 5000)
  = (Fixtures.fresh, Auth.at_time 5000).
Proof.
  apply (C9_valid_token_returned_unchanged
           Fixtures.rejecting Fixtures.fresh None None (Auth.at_time 5000)
           900000%N); [reflexivity | reflexivity | reflexivity | reflexivity].
Defined.

(** ** The two pattern sets of the gate *)

Section GateFacts.
Import Middleware.

Lemma edit_route_spec (pathname : string) :
  Regex.test_whole edit_route pathname = true ↔
  ∃ seg, seg ≠ "" ∧ Regex.all_digits seg = true
         ∧ pathname = "/quizzes/" +:+ seg +:+ "/edit".
Proof.
  rewrite test_whole_spec. unfold edit_route. rewrite matches_lit. split.
  - intros (s' & -> & H). apply matches_cat in H as (s1 & s2 & -> & H1 & H2).
    apply matches_plus_digit in H1 as [Hne Hd].
    apply matches_lit in H2 as (s3 & -> & H3). apply matches_eps in H3 as ->.
    exists s1. rewrite str_app_nil_r. auto.
  - intros (seg & Hne & Hd & ->). exists (seg +:+ "/edit").
    split; [reflexivity|]. apply matches_cat. exists seg, "/edit".
    split; [reflexivity|]. split; [apply matches_plus_digit; auto|].
    apply matches_lit. exists "". split; [reflexivity | constructor].
Qed.

Lemma edit_template_spec (pathname : string) :
  Regex.test_start (template "/quizzes/[id]/edit") pathname = true ↔
  ∃ seg rest, seg ≠ "" ∧ Regex.all_digits seg = true
              ∧ pathname = "/quizzes/" +:+ seg +:+ "/edit" +:+ rest.
Proof.
  change (template "/quizzes/[id]/edit") with edit_route.
  rewrite test_start_spec. split.
  - intros (p & rest & -> & H). apply test_whole_spec, edit_route_spec in H.
    destruct H as (seg & Hne & Hd & ->). exists seg, rest.
    split; [exact Hne|]. split; [exact Hd|].
    rewrite !str_app_assoc. reflexivity.
  - intros (seg & rest & Hne & Hd & ->).
    exists ("/quizzes/" +:+ seg +:+ "/edit"), rest. split.
    + rewrite !str_app_assoc. reflexivity.
    + apply test_whole_spec, edit_route_spec. eauto.
Qed.

(** A string of digits has no slash in it: it is one path segment. *)
Lemma digits_one_segment (seg : string) :
  Regex.all_digits seg = true → includes seg "/" = false.
Proof.
  induction seg as [|c seg IH]; [reflexivity|].
  cbn [Regex.all_digits includes String.prefix].
  intros [Hc Hseg]%andb_true_iff. rewrite (IH Hseg).
  destruct (ascii_dec "/" c) as [<-|_]; [discriminate Hc | reflexivity].
Qed.

Lemma requiresAuth_unfold (pathname : string) :
  requiresAuth pathname
  = startsWith pathname "/attempts"
    || (startsWith pathname "/quizzes/new"
        || (Regex.test_start (template "/quizzes/[id]/edit") pathname
            || false)).
Proof. reflexivity. Qed.

(** Every Teacher/Admin route is among the routes that require a token. *)
Lemma teacher_admin_route_requiresAuth (pathname : string) :
  teacher_admin_route pathname = true → requiresAuth pathname = true.
Proof.
  unfold teacher_admin_route. rewrite requiresAuth_unfold.
  intros [H|H]%orb_true_iff.
  - rewrite H. apply orb_true_iff. right. reflexivity.
  - apply test_whole_start in H.
    change (template "/quizzes/[id]/edit") with edit_route. rewrite H.
    rewrite !orb_true_r. reflexivity.
Qed.

(** The decision of the gate, case by case. *)
Lemma gate_cases (token : option CustomJWT) (pathname : string) :
  gate token pathname
  = if requiresAuth pathname && negb (bool_decide (is_Some token))
    then RedirectToLogin
    else if teacher_admin_route pathname
            && negb (role_is Auth.TEACHER (userRole token)
                     || role_is Auth.ADMIN (userRole token))
    then RedirectToUnauthorized
    else Allow.
Proof.
  unfold gate, withAuth, authorized, middleware.
  destruct (requiresAuth pathname), token as [t|]; cbn [andb negb];
    try rewrite (bool_decide_eq_true_2 _ (mk_is_Some _ _ eq_refl));
    try rewrite (bool_decide_eq_false_2 (is_Some None) is_Some_None);
    cbn [negb];
    destruct (teacher_admin_route pathname); cbn [andb];
    try reflexivity;
    destruct (role_is Auth.TEACHER _), (role_is Auth.ADMIN _); reflexivity.
Qed.

End GateFacts.

(** ** Claims on the Authorization Gate *)

(** C5, as stated, fails in the absent-role case when there is no token at
    all: on /quizzes/new the decision is the redirect to the login page,
    not the one to the unauthorized page. *)
Lemma C5_no_token_goes_to_login :
  Middleware.teacher_admin_route "/quizzes/new" = true
  ∧ Middleware.userRole None = None
  ∧ Middleware.gate None "/quizzes/new" = Middleware.RedirectToLogin
  ∧ Middleware.gate None "/quizzes/new" ≠ Middleware.RedirectToUnauthorized.
Proof. repeat split; try reflexivity. vm_compute. discriminate. Qed.

(** C5, amended. On a path that matches a Teacher/Admin pattern (it starts
    with /quizzes/new, or it is /quizzes/<digits>/edit), the authorized
    callback is asked before the role rule: without a token the decision is
    RedirectToLogin; with a token the decision is Allow when the role is
    TEACHER or ADMIN and RedirectToUnauthorized for every other role and
    for a token that carries no role. *)
Theorem C5_role_restricted_routes
    (token : option Middleware.CustomJWT) (pathname : string) :
  Middleware.teacher_admin_route pathname = true →
  Middleware.gate token pathname
  = match token with
    | None => Middleware.RedirectToLogin
    | Some _ =>
        match Middleware.userRole token with
        | Some Auth.TEACHER | Some Auth.ADMIN => Middleware.Allow
        | Some Auth.STUDENT | None => Middleware.RedirectToUnauthorized
        end
    end.
Proof.
  intros H. rewrite gate_cases, H.
  rewrite (teacher_admin_route_requiresAuth _ H).
  destruct token as [t|]; [|reflexivity].
  rewrite (bool_decide_eq_true_2 _ (mk_is_Some _ _ eq_refl)).
  destruct (Middleware.userRole (Some t)) as [[]|]; reflexivity.
Qed.

Lemma C5_witness :
  Middleware.gate (Middleware.with_role Auth.STUDENT) "/quizzes/12/edit"
  = Middleware.RedirectToUnauthorized.
Proof.
  apply (C5_role_restricted_routes
           (Middleware.with_role Auth.STUDENT) "/quizzes/12/edit").
  reflexivity.
Defined.

(** C6, as stated, fails for a valid role on a Teacher/Admin route: a
    STUDENT asking for /quizzes/new, a path that requires authentication,
    is not allowed but sent to the unauthorized page. *)
Lemma C6_student_not_allowed :
  Middleware.requiresAuth "/quizzes/new" = true
  ∧ Middleware.gate (Middleware.with_role Auth.STUDENT) "/quizzes/new"
    = Middleware.RedirectToUnauthorized
  ∧ Middleware.gate (Middleware.with_role Auth.STUDENT) "/quizzes/new"
    ≠ Middleware.Allow.
Proof. repeat split; try reflexivity. vm_compute. discriminate. Qed.

(** C6, amended. On a path that matches an authenticated-required pattern
    (it starts with /attempts, with /quizzes/new or with
    /quizzes/<digits>/edit), the gate returns RedirectToLogin when the
    request has no token, and with it no profile. For the same path and a
    token that carries a valid role it returns Allow, except on a
    Teacher/Admin route for the role STUDENT, where it returns
    RedirectToUnauthorized. *)
Theorem C6_authenticated_routes (pathname : string) :
  Middleware.requiresAuth pathname = true →
  Middleware.gate None pathname = Middleware.RedirectToLogin
  ∧ ∀ r : Auth.Role,
      Middleware.gate (Middleware.with_role r) pathname
      = if Middleware.teacher_admin_route pathname
        then match r with
             | Auth.TEACHER | Auth.ADMIN => Middleware.Allow
             | Auth.STUDENT => Middleware.RedirectToUnauthorized
             end
        else Middleware.Allow.
Proof.
  intros H. split.
  - rewrite gate_cases, H. reflexivity.
  - intros r. unfold Middleware.with_role. rewrite gate_cases, H.
    rewrite (bool_decide_eq_true_2 _ (mk_is_Some _ _ eq_refl)).
    destruct (Middleware.teacher_admin_route pathname); [|reflexivity].
    destruct r; reflexivity.
Qed.

Lemma C6_witness :
  Middleware.gate None "/attempts/3" = Middleware.RedirectToLogin
  ∧ ∀ r : Auth.Role,
      Middleware.gate (Middleware.with_role r) "/attempts/3"
      = if Middleware.teacher_admin_route "/attempts/3"
        then match r with
             | Auth.TEACHER | Auth.ADMIN => Middleware.Allow
             | Auth.STUDENT => Middleware.RedirectToUnauthorized
             end
        else Middleware.Allow.
Proof.
  apply (C6_authenticated_routes "/attempts/3"). reflexivity.
Defined.

(** C7, as stated, fails: abc is a single, non-empty segment, yet
    /quizzes/abc/edit matches neither the Teacher/Admin pattern nor the
    authenticated-required pattern. *)
Lemma C7_letters_are_not_an_id :
  "abc" ≠ ""
  ∧ Middleware.includes "abc" "/" = false
  ∧ Middleware.teacher_admin_route "/quizzes/abc/edit" = false
  ∧ Middleware.requiresAuth "/quizzes/abc/edit" = false.
Proof. repeat split; try reflexivity. discriminate. Qed.

(** C7, amended. Static patterns are matched as prefixes of the path. In the
    template /quizzes/{id}/edit the variable segment matches exactly the
    non-empty strings of decimal digits, hence one segment (no slash in it)
    and never an empty one; the Teacher/Admin pattern wants the path to end
    after /edit, the authenticated-required pattern lets anything follow. *)
Theorem C7_route_patterns (pathname : string) :
  (Middleware.teacher_admin_route pathname = true ↔
     (∃ rest, pathname = "/quizzes/new" +:+ rest)
     ∨ (∃ seg, seg ≠ "" ∧ Regex.all_digits seg = true
               ∧ Middleware.includes seg "/" = false
               ∧ pathname = "/quizzes/" +:+ seg +:+ "/edit"))
  ∧ (Middleware.requiresAuth pathname = true ↔
       (∃ rest, pathname = "/attempts" +:+ rest)
       ∨ (∃ rest, pathname = "/quizzes/new" +:+ rest)
       ∨ (∃ seg rest, seg ≠ "" ∧ Regex.all_digits seg = true
                      ∧ Middleware.includes seg "/" = false
                      ∧ pathname = "/quizzes/" +:+ seg +:+ "/edit" +:+ rest)).
Proof.
  split.
  - unfold Middleware.teacher_admin_route.
    rewrite orb_true_iff, startsWith_spec, edit_route_spec.
    split; (intros [H|(seg & Hne & Hd & H)]; [left; exact H | right]).
    + exists seg. auto using digits_one_segment.
    + destruct H as [_ ->]. eauto.
  - rewrite requiresAuth_unfold, !orb_true_iff, !startsWith_spec,
      edit_template_spec.
    split.
    + intros [H|[H|[(seg & rest & Hne & Hd & ->)|H]]]; auto; [|discriminate].
      right. right. exists seg, rest. auto using digits_one_segment.
    + intros [H|[H|(seg & rest & Hne & Hd & _ & ->)]]; auto.
      right. right. left. eauto.
Qed.

(** ** The submission payload *)

Section AttemptFacts.
Import Attempt.
Implicit Types (m : gmap N Answer) (qs : list Question.t) (k : N).

Lemma fold_push m qs (acc : list ParticipantAnswerSubmit) :
  fold_left (push_unanswered m) qs acc = acc ++ pushed m qs.
Proof.
  revert acc. induction qs as [|q qs IH]; intros acc; cbn [fold_left pushed flat_map].
  - rewrite app_nil_r. reflexivity.
  - rewrite IH. unfold push_unanswered, pushed.
    destruct (m !! Question.id q); [reflexivity|].
    rewrite <- app_assoc. reflexivity.
Qed.

Lemma submissionAnswers_app (quiz : Quiz.t) m :
  submissionAnswers quiz m
  = (answered <$> entries m) ++ pushed m (Quiz.questions quiz).
Proof. apply fold_push. Qed.

Lemma entries_perm m : entries m ≡ₚ map_to_list m.
Proof. apply merge_sort_Permutation. Qed.

Lemma elem_of_entries m k (a : Answer) : (k, a) ∈ entries m ↔ m !! k = Some a.
Proof. rewrite entries_perm. apply elem_of_map_to_list. Qed.

Lemma NoDup_entries m : NoDup (entries m).*1.
Proof. rewrite entries_perm. apply NoDup_fst_map_to_list. Qed.

Lemma answered_entry k (a : Answer) : answered (k, a) = entry_for k (Some a).
Proof.
  unfold answered, entry_for. destruct (selectedOptionIds a) as [[|x l]|];
    reflexivity.
Qed.

Lemma filter_answered_out (l : list (N * Answer)) k :
  k ∉ l.*1 → filter (λ e, question_id e = k) (answered <$> l) = [].
Proof.
  induction l as [|[k' a] l IH]; [reflexivity|].
  rewrite fmap_cons, not_elem_of_cons. cbn [fst]. intros [Hne Hl].
  rewrite fmap_cons, filter_cons_False; [apply IH, Hl|].
  cbn. congruence.
Qed.

Lemma filter_answered_in (l : list (N * Answer)) k (a : Answer) :
  NoDup l.*1 → (k, a) ∈ l →
  filter (λ e, question_id e = k) (answered <$> l) = [answered (k, a)].
Proof.
  induction l as [|[k' a'] l IH]; [intros _ []%elem_of_nil|].
  rewrite fmap_cons, NoDup_cons. cbn [fst]. intros [Hk' Hnd].
  rewrite elem_of_cons. intros [[= <- <-]|Hin].
  - rewrite fmap_cons, filter_cons_True by reflexivity.
    rewrite filter_answered_out by exact Hk'. reflexivity.
  - rewrite fmap_cons, filter_cons_False; [apply IH; assumption|].
    cbn. intros ->. apply Hk'.
    apply list_elem_of_fmap. exists (k, a). auto.
Qed.

Lemma filter_pushed_out m qs k :
  k ∉ Question.id <$> qs → filter (λ e, question_id e = k) (pushed m qs) = [].
Proof.
  induction qs as [|q qs IH]; [reflexivity|].
  rewrite fmap_cons, not_elem_of_cons. intros [Hne Hqs].
  cbn [pushed flat_map]. rewrite filter_app. fold (pushed m qs).
  rewrite IH by exact Hqs. rewrite app_nil_r.
  destruct (m !! Question.id q); [reflexivity|].
  rewrite filter_cons_False by (cbn; congruence). reflexivity.
Qed.

Lemma filter_pushed_answered m qs k (a : Answer) :
  m !! k = Some a → filter (λ e, question_id e = k) (pushed m qs) = [].
Proof.
  intros Hk. induction qs as [|q qs IH]; [reflexivity|].
  cbn [pushed flat_map]. rewrite filter_app. fold (pushed m qs).
  rewrite IH, app_nil_r.
  destruct (m !! Question.id q) eqn:Hq; [reflexivity|].
  rewrite filter_cons_False by (cbn; congruence). reflexivity.
Qed.

Lemma filter_pushed_unanswered m qs (q : Question.t) :
  NoDup (Question.id <$> qs) → q ∈ qs → m !! Question.id q = None →
  filter (λ e, question_id e = Question.id q) (pushed m qs)
  = [unanswered (Question.id q)].
Proof.
  intros Hnd Hin Hq. induction qs as [|q' qs IH]; [apply elem_of_nil in Hin as []|].
  rewrite fmap_cons, NoDup_cons in Hnd. destruct Hnd as [Hq' Hnd].
  cbn [pushed flat_map]. rewrite filter_app. fold (pushed m qs).
  apply elem_of_cons in Hin as [<-|Hin].
  - rewrite Hq, filter_pushed_out by exact Hq'.
    rewrite filter_cons_True by reflexivity. reflexivity.
  - rewrite IH by assumption.
    assert (Question.id q' ≠ Question.id q) as Hne.
    { intros E. apply Hq'. rewrite E. apply list_elem_of_fmap_2, Hin. }
    destruct (m !! Question.id q'); [reflexivity|].
    rewrite filter_cons_False by (cbn; exact Hne). reflexivity.
Qed.

(** With pairwise distinct question ids, the payload has one entry for a
    question of the quiz, and it is the one wanted. *)
Lemma entries_of_question (quiz : Quiz.t) m (q : Question.t) :
  NoDup (Question.id <$> Quiz.questions quiz) →
  q ∈ Quiz.questions quiz →
  entries_of (Question.id q) (payload quiz m)
  = [entry_for (Question.id q) (m !! Question.id q)].
Proof.
  intros Hnd Hin. unfold entries_of, payload. cbn [answers].
  rewrite submissionAnswers_app, filter_app.
  destruct (m !! Question.id q) as [a|] eqn:Hq.
  - rewrite (filter_answered_in _ _ a (NoDup_entries m));
      [|apply elem_of_entries, Hq].
    rewrite (filter_pushed_answered _ _ _ a Hq), answered_entry. reflexivity.
  - rewrite filter_answered_out.
    + rewrite filter_pushed_unanswered by assumption. reflexivity.
    + intros ([k a] & E & Hka)%list_elem_of_fmap. cbn in E. subst k.
      apply elem_of_entries in Hka. congruence.
Qed.

(** Every entry of the payload answers a key of the answers state or a
    question of the quiz. *)
Lemma payload_entries_known (quiz : Quiz.t) m (e : ParticipantAnswerSubmit) :
  e ∈ answers (payload quiz m) →
  is_Some (m !! question_id e)
  ∨ question_id e ∈ Question.id <$> Quiz.questions quiz.
Proof.
  unfold payload. cbn [answers]. rewrite submissionAnswers_app, elem_of_app.
  intros [H|H].
  - left. apply list_elem_of_fmap in H as ([k a] & -> & Hka).
    apply elem_of_entries in Hka. cbn. eauto.
  - right. unfold pushed in H. apply list_elem_of_In, in_flat_map in H.
    destruct H as (q & Hq & He). apply list_elem_of_In in Hq.
    destruct (m !! Question.id q); [destruct He|].
    destruct He as [<-|[]]. cbn [unanswered question_id].
    apply list_elem_of_fmap. exists q. auto.
Qed.

End AttemptFacts.

(** ** Claim on the attempt form *)

(** C10, as stated, fails for a quiz in which two questions share an id:
    with no answer recorded, the payload has two entries for that id. *)
Lemma C10_repeated_id_gives_two_entries :
  Attempt.entries_of 5
    (Attempt.payload
       {| Attempt.Quiz.id := 9; Attempt.Quiz.title := "twice";
          Attempt.Quiz.questions := [AttemptDemo.q 5; AttemptDemo.q 5] |} ∅)
  = [Attempt.unanswered 5; Attempt.unanswered 5]
  ∧ length
      (Attempt.entries_of 5
         (Attempt.payload
            {| Attempt.Quiz.id := 9; Attempt.Quiz.title := "twice";
               Attempt.Quiz.questions := [AttemptDemo.q 5; AttemptDemo.q 5] |}
            ∅)) ≠ 1%nat.
Proof. split; [reflexivity | discriminate]. Qed.

(** C10, amended. For a signed-in session, handleSubmit posts a payload that,
    for a quiz whose questions have pairwise distinct ids and for every
    answers state, contains exactly one entry for each question of the quiz:
    for an answered question the entry carries the recorded selections, an
    empty option selection being sent as null; for a question without a
    recorded answer both selected_option_ids and selected_answer_bool are
    null. *)
Theorem C10_one_entry_per_question
    (session : option Attempt.Session) (quiz : Attempt.Quiz.t)
    (answers' : gmap N Attempt.Answer) :
  Js.truthy_str (session ≫= Attempt.accessToken) = true →
  NoDup (Attempt.Question.id <$> Attempt.Quiz.questions quiz) →
  ∃ bearer payload',
    Attempt.handleSubmit session quiz answers'
    = Attempt.Post (Attempt.Quiz.id quiz) bearer payload'
    ∧ Attempt.quiz_id payload' = Attempt.Quiz.id quiz
    ∧ ∀ q, q ∈ Attempt.Quiz.questions quiz →
           Attempt.entries_of (Attempt.Question.id q) payload'
           = [Attempt.entry_for (Attempt.Question.id q)
                                (answers' !! Attempt.Question.id q)].
Proof.
  intros Htok Hnd. unfold Attempt.handleSubmit. rewrite Htok. cbn [negb].
  eexists _, _. split; [reflexivity|]. split; [reflexivity|].
  intros q Hq. apply entries_of_question; assumption.
Qed.

Lemma C10_witness :
  ∃ bearer payload',
    Attempt.handleSubmit (Some {| Attempt.accessToken := Some "access-1" |})
                         AttemptDemo.quiz3 AttemptDemo.some_answers
    = Attempt.Post 9 bearer payload'
    ∧ Attempt.quiz_id payload' = 9%N
    ∧ ∀ q, q ∈ Attempt.Quiz.questions AttemptDemo.quiz3 →
           Attempt.entries_of (Attempt.Question.id q) payload'
           = [Attempt.entry_for (Attempt.Question.id q)
                (AttemptDemo.some_answers !! Attempt.Question.id q)].
Proof.
  apply (C10_one_entry_per_question
           (Some {| Attempt.accessToken := Some "access-1" |})
           AttemptDemo.quiz3 AttemptDemo.some_answers).
  - reflexivity.
  - apply (bool_decide_unpack _). vm_compute. exact I.
Defined.

(** * Further properties of the embedded code *)

(** ** The jwt callback as a whole *)

Section JwtFacts.
Import Auth.
Variable be : Backend.

Lemma refresh_outcomes (token : CustomJWT) (w : World) :
  Js.truthy_str (refreshToken token) = true →
  ∃ rt, refreshToken token = Some rt ∧ rt ≠ ""
        ∧ (refreshAccessToken be token w).2 = sent be (PostTokenRefresh rt) w
        ∧ base (refreshAccessToken be token w).1 = base token.
Proof.
  intros (rt & Hrt & Hne)%truthy_str_true. exists rt.
  split; [exact Hrt|]. split; [exact Hne|].
  destruct (token_refresh be rt) as [data|] eqn:Hbe.
  - rewrite (refresh_accepted be _ _ _ _ Hrt Hne Hbe). split; reflexivity.
  - rewrite (refresh_rejected be _ _ _ Hrt Hne Hbe). split; reflexivity.
Qed.

Lemma exchange_world (token : CustomJWT) (acc : Account) (w : World) :
  (identity_exchange be token acc w).2
  = sent be (PostGoogleCallback (access_token acc) (id_token acc)) w
  ∧ base (identity_exchange be token acc w).1 = base token.
Proof.
  unfold identity_exchange. io_run.
  destruct (google_callback be _ _); split; reflexivity.
Qed.

Lemma subsequent_cases (token : CustomJWT) (w : World) :
  subsequent be token w = (token, w)
  ∨ (Js.truthy_str (refreshToken token) = true
     ∧ subsequent be token w = refreshAccessToken be token w)
  ∨ ((subsequent be token w).2 = w
     ∧ base (subsequent be token w).1 = base token).
Proof.
  destruct (still_valid token (clock w)) eqn:Hv.
  - left. apply subsequent_valid, Hv.
  - destruct (Js.truthy_str (refreshToken token)) eqn:Ht.
    + right. left. split; [reflexivity|]. apply subsequent_delegates; assumption.
    + right. right. rewrite subsequent_no_refresh_token by assumption.
      split; reflexivity.
Qed.

Lemma jwt_cases (token : CustomJWT) (user' : option NextAuthUser)
    (account : option Account) (w : World) :
  jwt be token user' account w = subsequent be token w
  ∨ ∃ acc, account = Some acc
           ∧ jwt be token user' account w = identity_exchange be token acc w.
Proof.
  unfold jwt. destruct account as [acc|], user' as [u|]; auto.
  destruct (String.eqb _ _); eauto.
Qed.

End JwtFacts.

(** X1. Whatever branch the jwt callback takes, the claims NextAuth keeps in
    the token (name, email, picture, sub) are those of the token it was
    given. *)
Theorem jwt_keeps_nextauth_claims
    (be : Auth.Backend) (token : Auth.CustomJWT)
    (user' : option Auth.NextAuthUser) (account : option Auth.Account)
    (w : Auth.World) :
  Auth.base (Auth.jwt be token user' account w).1 = Auth.base token.
Proof.
  destruct (jwt_cases be token user' account w) as [->|(acc & _ & ->)].
  - destruct (subsequent_cases be token w) as [->|[[Ht ->]|[_ H]]].
    + reflexivity.
    + destruct (refresh_outcomes be token w Ht) as (rt & _ & _ & _ & H).
      exact H.
    + exact H.
  - apply exchange_world.
Qed.

(** X2. One run of the jwt callback sends at most one request: none, or
    the refresh request with the refresh token of the record, or the
    exchange request with the tokens of the account. Nothing is retried. *)
Theorem jwt_sends_at_most_one_request
    (be : Auth.Backend) (token : Auth.CustomJWT)
    (user' : option Auth.NextAuthUser) (account : option Auth.Account)
    (w : Auth.World) :
  let w' := (Auth.jwt be token user' account w).2 in
  w' = w
  ∨ (∃ rt, Auth.refreshToken token = Some rt
           ∧ w' = Auth.sent be (Auth.PostTokenRefresh rt) w)
  ∨ (∃ acc, account = Some acc
            ∧ w' = Auth.sent be
                     (Auth.PostGoogleCallback (Auth.access_token acc)
                                              (Auth.id_token acc)) w).
Proof.
  cbn zeta.
  destruct (jwt_cases be token user' account w) as [->|(acc & Hacc & ->)].
  - destruct (subsequent_cases be token w) as [->|[[Ht ->]|[H _]]].
    + left. reflexivity.
    + right. left.
      destruct (refresh_outcomes be token w Ht) as (rt & Hrt & _ & H & _).
      eauto.
    + left. exact H.
  - right. right. exists acc. split; [exact Hacc|]. apply exchange_world.
Qed.

(** X3. Initial sign-in with google, exchange accepted: the record gets the
    backend's access token, refresh token and user, an expiry 300000 ms
    after the time read when the answer is in, and no error tag; the only
    request is the exchange with the account's two tokens. *)
Theorem sign_in_accepted
    (be : Auth.Backend) (token : Auth.CustomJWT) (u : Auth.NextAuthUser)
    (acc : Auth.Account) (w : Auth.World) (data : Auth.LoginData) :
  Auth.provider acc = "google" →
  Auth.google_callback be (Auth.access_token acc) (Auth.id_token acc)
    = Some data →
  let w' := Auth.sent be (Auth.PostGoogleCallback (Auth.access_token acc)
                                                  (Auth.id_token acc)) w in
  Auth.jwt be token (Some u) (Some acc) w
  = ({| Auth.base := Auth.base token;
        Auth.accessToken := Some (Auth.login_access_token data);
        Auth.refreshToken := Some (Auth.login_refresh_token data);
        Auth.accessTokenExpires := Some (Auth.clock w' + 300000)%N;
        Auth.user := Some (Auth.login_user data);
        Auth.error := None |}, w').
Proof.
  intros Hp Hbe. unfold Auth.jwt. rewrite Hp. cbn [String.eqb].
  change ("google" =? "google")%string with true. cbn iota.
  unfold Auth.identity_exchange. io_run. cbn. rewrite Hbe. reflexivity.
Qed.

Lemma sign_in_accepted_witness :
  Auth.jwt Fixtures.accepting Fixtures.no_refresh
           (Some {| Auth.user_id := "u1" |}) (Some Fixtures.google)
           (Auth.at_time 100)
  = ({| Auth.base := Fixtures.claims;
        Auth.accessToken := Some "access-1";
        Auth.refreshToken := Some "refresh-1";
        Auth.accessTokenExpires := Some 300140%N;
        Auth.user := Some Fixtures.alice;
        Auth.error := None |},
     {| Auth.clock := 140;
        Auth.requests :=
          [Auth.PostGoogleCallback (Some "g-access") (Some "g-id")] |}).
Proof.
  apply (sign_in_accepted Fixtures.accepting Fixtures.no_refresh
           {| Auth.user_id := "u1" |} Fixtures.google (Auth.at_time 100)
           {| Auth.login_access_token := "access-1";
              Auth.login_refresh_token := "refresh-1";
              Auth.login_user := Fixtures.alice |});
    reflexivity.
Defined.

(** X4. Initial sign-in with google, exchange rejected: the record is
    tagged BackendLoginFailed and has no access token, refresh token, expiry
    or user left, whatever it held before. *)
Theorem sign_in_rejected
    (be : Auth.Backend) (token : Auth.CustomJWT) (u : Auth.NextAuthUser)
    (acc : Auth.Account) (w : Auth.World) :
  Auth.provider acc = "google" →
  Auth.google_callback be (Auth.access_token acc) (Auth.id_token acc) = None →
  (Auth.jwt be token (Some u) (Some acc) w).1
  = {| Auth.base := Auth.base token;
       Auth.accessToken := None;
       Auth.refreshToken := None;
       Auth.accessTokenExpires := None;
       Auth.user := None;
       Auth.error := Some Auth.BackendLoginFailed |}.
Proof.
  intros Hp Hbe. unfold Auth.jwt. rewrite Hp.
  change ("google" =? "google")%string with true. cbn iota.
  unfold Auth.identity_exchange. io_run. cbn. rewrite Hbe. reflexivity.
Qed.

Lemma sign_in_rejected_witness :
  (Auth.jwt Fixtures.rejecting Fixtures.fresh
            (Some {| Auth.user_id := "u1" |}) (Some Fixtures.google)
            (Auth.at_time 100)).1
  = {| Auth.base := Fixtures.claims;
       Auth.accessToken := None;
       Auth.refreshToken := None;
       Auth.accessTokenExpires := None;
       Auth.user := None;
       Auth.error := Some Auth.BackendLoginFailed |}.
Proof.
  apply (sign_in_rejected Fixtures.rejecting Fixtures.fresh
           {| Auth.user_id := "u1" |} Fixtures.google (Auth.at_time 100));
    reflexivity.
Defined.

(** X5. The jwt callback keeps records failing closed: run on a record on
    which an error tag excludes an access token, it returns such a record,
    on every branch and whatever the backend answers. *)
Theorem jwt_keeps_failing_closed
    (be : Auth.Backend) (token : Auth.CustomJWT)
    (user' : option Auth.NextAuthUser) (account : option Auth.Account)
    (w : Auth.World) :
  Session.fails_closed token →
  Session.fails_closed (Auth.jwt be token user' account w).1.
Proof. unfold Session.fails_closed. apply jwt_fails_closed. Qed.

Lemma jwt_keeps_failing_closed_witness :
  Session.fails_closed
    (Auth.jwt Fixtures.rejecting Fixtures.expired None None
              (Auth.at_time 5000)).1.
Proof.
  apply (jwt_keeps_failing_closed Fixtures.rejecting Fixtures.expired
           None None (Auth.at_time 5000)).
  intros H. exfalso. apply H. reflexivity.
Defined.

(** X6. Outside a sign-in, when the access token is no longer valid and the
    record has no refresh token, the jwt callback sends no request and
    returns the record tagged MissingRefreshTokenError, without access
    token, expiry and user. *)
Theorem jwt_without_refresh_token
    (be : Auth.Backend) (token : Auth.CustomJWT)
    (user' : option Auth.NextAuthUser) (account : option Auth.Account)
    (w : Auth.World) :
  Auth.initial_sign_in user' account = false →
  Auth.still_valid token (Auth.clock w) = false →
  Js.truthy_str (Auth.refreshToken token) = false →
  Auth.jwt be token user' account w
  = ({| Auth.base := Auth.base token;
        Auth.accessToken := None;
        Auth.refreshToken := Auth.refreshToken token;
        Auth.accessTokenExpires := None;
        Auth.user := None;
        Auth.error := Some Auth.MissingRefreshTokenError |}, w).
Proof.
  intros Hi Hv Ht. rewrite jwt_subsequent by exact Hi.
  apply subsequent_no_refresh_token; assumption.
Qed.

Lemma jwt_without_refresh_token_witness :
  Auth.jwt Fixtures.accepting Fixtures.no_refresh None None (Auth.at_time 5000)
  = ({| Auth.base := Fixtures.claims;
        Auth.accessToken := None;
        Auth.refreshToken := None;
        Auth.accessTokenExpires := None;
        Auth.user := None;
        Auth.error := Some Auth.MissingRefreshTokenError |},
     Auth.at_time 5000).
Proof.
  apply (jwt_without_refresh_token Fixtures.accepting Fixtures.no_refresh
           None None (Auth.at_time 5000)); reflexivity.
Defined.

(** X7. Outside a sign-in, on a record whose access token is no longer
    valid and whose refresh the backend accepts, the jwt callback sends
    exactly the one refresh request and returns a record without error tag;
    that record is then returned as it is, without any request, by every
    later run outside a sign-in that starts before its new expiry. *)
Theorem refreshed_record_is_reused
    (be : Auth.Backend) (token : Auth.CustomJWT)
    (user' : option Auth.NextAuthUser) (account : option Auth.Account)
    (w : Auth.World) (rt : string) (data : Auth.RefreshData) :
  Auth.initial_sign_in user' account = false →
  Auth.still_valid token (Auth.clock w) = false →
  Auth.refreshToken token = Some rt → rt ≠ "" →
  Auth.token_refresh be rt = Some data →
  let r := (Auth.jwt be token user' account w).1 in
  let w' := (Auth.jwt be token user' account w).2 in
  Auth.error r = None
  ∧ Auth.requests w' = Auth.requests w ++ [Auth.PostTokenRefresh rt]
  ∧ ∀ (be2 : Auth.Backend) (w2 : Auth.World),
      (Auth.clock w2 < Auth.clock w' + 300000)%N →
      Auth.jwt be2 r None None w2 = (r, w2).
Proof.
  intros Hi Hv Hrt Hne Hbe r w'. subst r w'.
  rewrite jwt_subsequent by exact Hi.
  rewrite subsequent_delegates; [| exact Hv | apply truthy_str_true; eauto].
  rewrite (refresh_accepted be token w rt data Hrt Hne Hbe). cbn [fst snd].
  split; [reflexivity|]. split; [reflexivity|].
  intros be2 w2 Hlt. rewrite jwt_subsequent by reflexivity.
  apply subsequent_valid. unfold Auth.still_valid.
  cbn [Auth.accessTokenExpires Js.truthy_num].
  apply andb_true_intro. split.
  - apply negb_true_iff, N.eqb_neq. unfold Auth.lifetime. lia.
  - apply N.ltb_lt. unfold Auth.lifetime. cbn in Hlt |- *. lia.
Qed.

Lemma refreshed_record_is_reused_witness :
  let r := (Auth.jwt Fixtures.rotating Fixtures.expired None None
                     (Auth.at_time 5000)).1 in
  let w' := (Auth.jwt Fixtures.rotating Fixtures.expired None None
                      (Auth.at_time 5000)).2 in
  Auth.error r = None
  ∧ Auth.requests w' = [] ++ [Auth.PostTokenRefresh "refresh-1"]
  ∧ ∀ (be2 : Auth.Backend) (w2 : Auth.World),
      (Auth.clock w2 < Auth.clock w' + 300000)%N →
      Auth.jwt be2 r None None w2 = (r, w2).
Proof.
  apply (refreshed_record_is_reused Fixtures.rotating Fixtures.expired
           None None (Auth.at_time 5000) "refresh-1"
           {| Auth.access := "access-2"; Auth.refresh := Some "refresh-2" |});
    [reflexivity | reflexivity | reflexivity | discriminate | reflexivity].
Defined.

(** X8. A rejected refresh is not tried again: the record the jwt callback
    returns after the rejection has lost its refresh token, so that every
    later run outside a sign-in sends no request, whatever the backend
    would answer, and returns the record tagged MissingRefreshTokenError
    with the user removed. *)
Theorem rejected_refresh_is_not_retried
    (be : Auth.Backend) (token : Auth.CustomJWT)
    (user' : option Auth.NextAuthUser) (account : option Auth.Account)
    (w : Auth.World) (rt : string) :
  Auth.initial_sign_in user' account = false →
  Auth.still_valid token (Auth.clock w) = false →
  Auth.refreshToken token = Some rt → rt ≠ "" →
  Auth.token_refresh be rt = None →
  ∀ (be2 : Auth.Backend) (w2 : Auth.World),
    Auth.jwt be2 (Auth.jwt be token user' account w).1 None None w2
    = ({| Auth.base := Auth.base token;
          Auth.accessToken := None;
          Auth.refreshToken := None;
          Auth.accessTokenExpires := None;
          Auth.user := None;
          Auth.error := Some Auth.MissingRefreshTokenError |}, w2).
Proof.
  intros Hi Hv Hrt Hne Hbe be2 w2.
  rewrite (jwt_refresh_rejected be token user' account w rt Hi Hv Hrt Hne Hbe).
  reflexivity.
Qed.

Lemma rejected_refresh_is_not_retried_witness :
  Auth.jwt Fixtures.accepting
    (Auth.jwt Fixtures.rejecting Fixtures.expired None None
              (Auth.at_time 5000)).1 None None (Auth.at_time 9000)
  = ({| Auth.base := Fixtures.claims;
        Auth.accessToken := None;
        Auth.refreshToken := None;
        Auth.accessTokenExpires := None;
        Auth.user := None;
        Auth.error := Some Auth.MissingRefreshTokenError |},
     Auth.at_time 9000).
Proof.
  apply (rejected_refresh_is_not_retried Fixtures.rejecting Fixtures.expired
           None None (Auth.at_time 5000) "refresh-1");
    [reflexivity | reflexivity | reflexivity | discriminate | reflexivity].
Defined.

(** X9. From the jwt callback through the session callback to
    getAccessToken: when the record the jwt callback returns from a record
    failing closed carries an error tag, of whatever kind, getAccessToken
    on the session made from it yields null. *)
Theorem session_with_error_gives_no_token
    (be : Auth.Backend) (token : Auth.CustomJWT)
    (user' : option Auth.NextAuthUser) (account : option Auth.Account)
    (w : Auth.World) (session0 : Session.DefaultSession) :
  Session.fails_closed token →
  Auth.error (Auth.jwt be token user' account w).1 ≠ None →
  Session.getAccessToken
    (Session.Resolves
       (Some (Session.session session0 (Auth.jwt be token user' account w).1)))
  = None.
Proof.
  intros Hinv Herr.
  pose proof (jwt_fails_closed be token user' account w Hinv Herr) as Hacc.
  unfold Session.getAccessToken, Session.session.
  cbn [Session.error Session.accessToken]. rewrite Hacc.
  destruct (Auth.error _) as [e|]; [|reflexivity].
  destruct (String.eqb e _); reflexivity.
Qed.

Lemma session_with_error_gives_no_token_witness :
  Session.getAccessToken
    (Session.Resolves
       (Some (Session.session
                {| Session.default_user := None;
                   Session.default_expires := "2030-01-01T00:00:00.000Z" |}
                (Auth.jwt Fixtures.accepting Fixtures.no_refresh None None
                          (Auth.at_time 5000)).1)))
  = None.
Proof.
  apply (session_with_error_gives_no_token Fixtures.accepting
           Fixtures.no_refresh None None (Auth.at_time 5000)
           {| Session.default_user := None;
              Session.default_expires := "2030-01-01T00:00:00.000Z" |}).
  - intros H. exfalso. apply H. reflexivity.
  - discriminate.
Defined.

(** ** The gate, decision by decision *)

(** X10. A path that matches none of the protected patterns is allowed for
    everyone, with or without a token and whatever the role. *)
Theorem gate_allows_public_paths
    (token : option Middleware.CustomJWT) (pathname : string) :
  Middleware.requiresAuth pathname = false →
  Middleware.gate token pathname = Middleware.Allow.
Proof.
  intros H. rewrite gate_cases, H. cbn [andb].
  destruct (Middleware.teacher_admin_route pathname) eqn:Ht; [|reflexivity].
  apply teacher_admin_route_requiresAuth in Ht. congruence.
Qed.

Lemma gate_allows_public_paths_witness :
  Middleware.gate None "/quizzes/12" = Middleware.Allow.
Proof.
  apply (gate_allows_public_paths None "/quizzes/12"). reflexivity.
Defined.

(** X11. The gate sends a request to the login page exactly when the request
    has no token and the path matches a protected pattern; a request that
    carries a token is never sent there. *)
Theorem gate_login_iff
    (token : option Middleware.CustomJWT) (pathname : string) :
  Middleware.gate token pathname = Middleware.RedirectToLogin
  ↔ token = None ∧ Middleware.requiresAuth pathname = true.
Proof.
  rewrite gate_cases.
  destruct token as [t|].
  - rewrite (bool_decide_eq_true_2 _ (mk_is_Some _ _ eq_refl)).
    rewrite andb_false_r.
    split; [|intros [[=] _]].
    destruct (_ && _); discriminate.
  - rewrite (bool_decide_eq_false_2 (is_Some None) is_Some_None).
    cbn [negb]. rewrite andb_true_r.
    destruct (Middleware.requiresAuth pathname) eqn:Hr.
    + split; auto.
    + split; [|intros [_ [=]]].
      destruct (_ && _); discriminate.
Qed.

(** X12. The gate sends a request to the unauthorized page exactly when it
    carries a token, the path is a Teacher/Admin route and the role on the
    token is neither TEACHER nor ADMIN (a token without user or role
    included). *)
Theorem gate_unauthorized_iff
    (token : option Middleware.CustomJWT) (pathname : string) :
  Middleware.gate token pathname = Middleware.RedirectToUnauthorized
  ↔ token ≠ None
    ∧ Middleware.teacher_admin_route pathname = true
    ∧ Middleware.userRole token ≠ Some Auth.TEACHER
    ∧ Middleware.userRole token ≠ Some Auth.ADMIN.
Proof.
  rewrite gate_cases.
  destruct token as [t|].
  - rewrite (bool_decide_eq_true_2 _ (mk_is_Some _ _ eq_refl)).
    rewrite andb_false_r.
    destruct (Middleware.teacher_admin_route pathname); cbn [andb].
    + destruct (Middleware.userRole (Some t)) as [[]|]; cbn;
        (split; [intros H; try discriminate H; repeat split; congruence
                |intros (_ & _ & H1 & H2); congruence]).
    + split; [discriminate | intros (_ & [=] & _)].
  - rewrite (bool_decide_eq_false_2 (is_Some None) is_Some_None).
    cbn [negb]. rewrite andb_true_r.
    split; [|intros [H _]; congruence].
    intros H. exfalso. revert H.
    destruct (Middleware.teacher_admin_route pathname) eqn:Ht.
    + rewrite (teacher_admin_route_requiresAuth _ Ht). discriminate.
    + destruct (Middleware.requiresAuth pathname); discriminate.
Qed.

Lemma gate_on_new_quiz (t : Middleware.CustomJWT) :
  Middleware.gate (Some t) "/quizzes/new"
  = match Middleware.userRole (Some t) with
    | Some Auth.TEACHER | Some Auth.ADMIN => Middleware.Allow
    | Some Auth.STUDENT | None => Middleware.RedirectToUnauthorized
    end.
Proof.
  rewrite gate_cases.
  rewrite (bool_decide_eq_true_2 _ (mk_is_Some _ _ eq_refl)).
  destruct (Middleware.userRole (Some t)) as [[]|]; reflexivity.
Qed.

(** X13. NewQuizPage admits nobody the gate turns away: whenever the page,
    given the user of the session getServerSession builds from the token of
    the request, renders the form instead of redirecting, the gate has
    allowed the request for /quizzes/new with that token. (The converse
    fails: the jwt run behind getServerSession can remove the user.) *)
Theorem new_quiz_page_admits_only_whom_the_gate_allows
    (be : Auth.Backend) (session0 : Session.DefaultSession)
    (token : option Auth.CustomJWT) (w : Auth.World) :
  Pages.newQuizPage_redirects
    (Pages.getServerSession be session0 token w ≫= Session.user) = false →
  Middleware.gate (Pages.middleware_token <$> token) "/quizzes/new"
  = Middleware.Allow.
Proof.
  destruct token as [t|]; [|discriminate].
  change (Pages.getServerSession be session0 (Some t) w ≫= Session.user)
    with (Auth.user (Auth.jwt be t None None w).1).
  change (Pages.middleware_token <$> Some t)
    with (Some (Pages.middleware_token t)).
  assert (Auth.user (Auth.jwt be t None None w).1 = Auth.user t
          ∨ Auth.user (Auth.jwt be t None None w).1 = None) as Huser.
  { rewrite jwt_subsequent by reflexivity.
    destruct (Auth.still_valid t (Auth.clock w)) eqn:Hv.
    - rewrite subsequent_valid by exact Hv. auto.
    - destruct (Js.truthy_str (Auth.refreshToken t)) eqn:Ht.
      + rewrite subsequent_delegates by assumption.
        apply truthy_str_true in Ht as (rt & Hrt & Hne).
        destruct (Auth.token_refresh be rt) as [data|] eqn:Hbe.
        * rewrite (refresh_accepted be _ _ _ _ Hrt Hne Hbe). auto.
        * rewrite (refresh_rejected be _ _ _ Hrt Hne Hbe). auto.
      + rewrite subsequent_no_refresh_token by assumption. auto. }
  destruct Huser as [-> | ->]; [|discriminate].
  rewrite (gate_on_new_quiz _).
  unfold Pages.middleware_token, Middleware.userRole. cbn [Middleware.user].
  destruct (Auth.user t) as [u|]; cbn; [|discriminate].
  destruct (Auth.role u); cbn; (reflexivity || discriminate).
Qed.

Lemma new_quiz_page_admits_only_whom_the_gate_allows_witness :
  Middleware.gate (Pages.middleware_token <$> Some Fixtures.fresh)
                  "/quizzes/new"
  = Middleware.Allow.
Proof.
  apply (new_quiz_page_admits_only_whom_the_gate_allows Fixtures.rejecting
           {| Session.default_user := None;
              Session.default_expires := "2030-01-01T00:00:00.000Z" |}
           (Some Fixtures.fresh) (Auth.at_time 5000)).
  reflexivity.
Defined.

(** ** The answers state of the attempt form *)

Section AttemptFormFacts.
Import Attempt AttemptForm.
Implicit Types (l : list N) (x y : N) (s : gmap N Answer).

Lemma toggle_nil x : toggle [] x = [x].
Proof. reflexivity. Qed.

Lemma toggle_cons y l x :
  toggle (y :: l) x = if N.eqb y x then l else y :: toggle l x.
Proof.
  unfold toggle. cbn [indexOf]. destruct (N.eqb y x); [reflexivity|].
  destruct (indexOf l x); reflexivity.
Qed.

Lemma elem_of_toggle_ne l x y : y ≠ x → y ∈ toggle l x ↔ y ∈ l.
Proof.
  intros Hne. induction l as [|z l IH].
  - rewrite toggle_nil, list_elem_of_singleton, elem_of_nil. tauto.
  - rewrite toggle_cons. destruct (N.eqb_spec z x) as [->|Hz].
    + rewrite elem_of_cons. tauto.
    + rewrite !elem_of_cons, IH. reflexivity.
Qed.

Lemma elem_of_toggle_eq l x : NoDup l → x ∈ toggle l x ↔ x ∉ l.
Proof.
  induction l as [|z l IH]; intros Hnd.
  - rewrite toggle_nil, list_elem_of_singleton, elem_of_nil. tauto.
  - apply NoDup_cons in Hnd as [Hz Hnd]. rewrite toggle_cons.
    destruct (N.eqb_spec z x) as [->|Hne].
    + rewrite not_elem_of_cons. tauto.
    + rewrite elem_of_cons, (IH Hnd), not_elem_of_cons.
      split; [intros [H|H]; [congruence | auto] | intros [_ H]; auto].
Qed.

Lemma NoDup_toggle l x : NoDup l → NoDup (toggle l x).
Proof.
  induction l as [|z l IH]; intros Hnd.
  - rewrite toggle_nil. apply NoDup_singleton.
  - apply NoDup_cons in Hnd as [Hz Hnd]. rewrite toggle_cons.
    destruct (N.eqb_spec z x) as [->|Hne]; [exact Hnd|].
    apply NoDup_cons. split; [|auto].
    rewrite elem_of_toggle_ne by exact Hne. exact Hz.
Qed.

(** The option ids recorded for a question, as the handler reads them. *)
Lemma current_ids_NoDup s k :
  (∀ k' a, s !! k' = Some a → tidy a) →
  NoDup (default []
           (selectedOptionIds
              (default {| selectedOptionIds := None;
                          selectedAnswerBool := None |} (s !! k)))).
Proof.
  intros Hs. destruct (s !! k) as [a|] eqn:Hk; cbn; [|apply NoDup_nil_2].
  destruct (Hs k a Hk) as (l & -> & Hnd & _). exact Hnd.
Qed.

Lemma handleAnswerChange_tidy s s' k (t : QuestionType) (v : Value)
    (m : bool) :
  (∀ k' a, s !! k' = Some a → tidy a) →
  handleAnswerChange k t v m s = Some s' →
  ∀ k' a, s' !! k' = Some a → tidy a.
Proof.
  intros Hs Hs' k' a. pose proof (current_ids_NoDup s k Hs) as Hcur.
  assert (∀ b, tidy {| selectedOptionIds := Some [];
                       selectedAnswerBool := Some b |}) as Hbool.
  { intros b. exists []. split; [reflexivity|]. split; [constructor | auto]. }
  assert (∀ x, tidy {| selectedOptionIds :=
                         Some (if m
                               then toggle
                                      (default []
                                         (selectedOptionIds
                                            (default
                                               {| selectedOptionIds := None;
                                                  selectedAnswerBool := None |}
                                               (s !! k)))) x
                               else [x]);
                       selectedAnswerBool := None |}) as Hopt.
  { intros x. eexists. split; [reflexivity|]. split; [|intros []; reflexivity].
    destruct m; [apply NoDup_toggle, Hcur | apply NoDup_singleton]. }
  unfold handleAnswerChange in Hs'.
  destruct t, v as [x|b]; try discriminate; injection Hs' as <-;
    (destruct (decide (k = k')) as [<-|Hne];
     [rewrite lookup_insert_eq; intros [= <-]; auto
     |rewrite lookup_insert_ne by exact Hne; apply Hs]).
Qed.

Lemma handleAnswerChange_dom s s' k (t : QuestionType) (v : Value)
    (m : bool) k' :
  handleAnswerChange k t v m s = Some s' →
  is_Some (s' !! k') → k' = k ∨ is_Some (s !! k').
Proof.
  unfold handleAnswerChange. intros Hs'.
  destruct t, v as [x|b]; try discriminate; injection Hs' as <-;
    (destruct (decide (k = k')) as [<-|Hne];
     [auto | rewrite lookup_insert_ne by exact Hne; auto]).
Qed.

Lemma onChange_handle (q : Question.t) (input : Input) s s' :
  onChange q input s = Some s' →
  ∃ v m, handleAnswerChange (Question.id q) (Question.question_type q) v m s
         = Some s'.
Proof.
  unfold onChange.
  destruct (Question.question_type q), input; try discriminate; eauto.
Qed.

Lemma reachable_tidy (quiz : Quiz.t) s :
  reachable quiz s → ∀ k a, s !! k = Some a → tidy a.
Proof.
  induction 1 as [|s q input s' _ IH _ Hs'].
  - intros k a H. rewrite lookup_empty in H. discriminate.
  - apply onChange_handle in Hs' as (v & m & Hs').
    eapply handleAnswerChange_tidy; eassumption.
Qed.

Lemma reachable_dom (quiz : Quiz.t) s :
  reachable quiz s →
  ∀ k, is_Some (s !! k) → k ∈ Question.id <$> Quiz.questions quiz.
Proof.
  induction 1 as [|s q input s' _ IH Hq Hs'].
  - intros k [a H]. rewrite lookup_empty in H. discriminate.
  - apply onChange_handle in Hs' as (v & m & Hs'). intros k Hk.
    destruct (handleAnswerChange_dom _ _ _ _ _ _ _ Hs' Hk) as [->|Hk'].
    + apply list_elem_of_fmap_2, Hq.
    + apply IH, Hk'.
Qed.

Lemma elem_of_pushed_ids s (qs : list Question.t) (k : N) :
  k ∈ question_id <$> pushed s qs
  ↔ k ∈ Question.id <$> qs ∧ s !! k = None.
Proof.
  induction qs as [|q qs IH].
  - cbn. rewrite elem_of_nil. tauto.
  - cbn [pushed flat_map]. fold (pushed s qs).
    rewrite fmap_app, elem_of_app, IH, fmap_cons, elem_of_cons.
    destruct (s !! Question.id q) eqn:Hq; cbn.
    + rewrite elem_of_nil. split; [intros [[]|H]; tauto|].
      intros [[->|H] Hk]; [congruence | auto].
    + rewrite list_elem_of_singleton. split.
      * intros [->|[H1 H2]]; auto.
      * intros [[->|H] Hk]; auto.
Qed.

Lemma NoDup_pushed_ids s (qs : list Question.t) :
  NoDup (Question.id <$> qs) → NoDup (question_id <$> pushed s qs).
Proof.
  induction qs as [|q qs IH]; [constructor|].
  rewrite fmap_cons, NoDup_cons. intros [Hq Hnd].
  cbn [pushed flat_map]. fold (pushed s qs).
  destruct (s !! Question.id q); cbn; [auto|].
  apply NoDup_cons. split; [|auto].
  rewrite elem_of_pushed_ids. tauto.
Qed.

Lemma answered_ids (l : list (N * Answer)) :
  question_id <$> (answered <$> l) = l.*1.
Proof.
  rewrite <- list_fmap_compose. apply list_fmap_ext. intros _ [k a] _.
  reflexivity.
Qed.

End AttemptFormFacts.

(** X14. A single-choice option input behaves as a radio button: after its
    onChange, whatever the state was, the option it stands for is the one
    checked option of the question. *)
Theorem single_choice_checks_one_option
    (q : Attempt.Question.t) (x : N) (s : gmap N Attempt.Answer) :
  Attempt.Question.question_type q = Attempt.SINGLE_MCQ →
  ∃ s', AttemptForm.onChange q (AttemptForm.OptionInput x) s = Some s'
        ∧ ∀ y, AttemptForm.checked s' q y = bool_decide (y = x).
Proof.
  intros Ht. unfold AttemptForm.onChange, AttemptForm.is_multi.
  rewrite Ht. cbn. eexists. split; [reflexivity|].
  intros y. unfold AttemptForm.checked. rewrite lookup_insert_eq. cbn.
  apply bool_decide_ext. apply list_elem_of_singleton.
Qed.

Lemma single_choice_checks_one_option_witness :
  ∃ s', AttemptForm.onChange (AttemptDemo.q 5) (AttemptForm.OptionInput 3)
                             AttemptDemo.some_answers = Some s'
        ∧ ∀ y, AttemptForm.checked s' (AttemptDemo.q 5) y
               = bool_decide (y = 3%N).
Proof.
  apply (single_choice_checks_one_option (AttemptDemo.q 5) 3
           AttemptDemo.some_answers).
  reflexivity.
Defined.

(** X15. A multiple-choice option input behaves as a check box: in a state
    of the form, its onChange flips whether its option is checked and leaves
    the other options of the question as they were. *)
Theorem multi_choice_toggles_one_option
    (quiz : Attempt.Quiz.t) (q : Attempt.Question.t) (x : N)
    (s : gmap N Attempt.Answer) :
  AttemptForm.reachable quiz s →
  Attempt.Question.question_type q = Attempt.MULTI_MCQ →
  ∃ s', AttemptForm.onChange q (AttemptForm.OptionInput x) s = Some s'
        ∧ AttemptForm.checked s' q x = negb (AttemptForm.checked s q x)
        ∧ ∀ y, y ≠ x → AttemptForm.checked s' q y = AttemptForm.checked s q y.
Proof.
  intros Hs Ht. unfold AttemptForm.onChange, AttemptForm.is_multi.
  rewrite Ht. cbn. eexists. split; [reflexivity|].
  pose proof (reachable_tidy quiz s Hs) as Htidy.
  unfold AttemptForm.checked. rewrite lookup_insert_eq. cbn.
  destruct (s !! Attempt.Question.id q) as [a|] eqn:Hq; cbn.
  - destruct (Htidy _ _ Hq) as (l & -> & Hnd & _). cbn. split.
    + apply eq_true_iff_eq.
      rewrite negb_true_iff, bool_decide_eq_true, bool_decide_eq_false.
      apply elem_of_toggle_eq, Hnd.
    + intros y Hy. apply bool_decide_ext, elem_of_toggle_ne, Hy.
  - change (AttemptForm.toggle [] x) with [x]. split.
    + apply bool_decide_eq_true, list_elem_of_singleton. reflexivity.
    + intros y Hy. apply bool_decide_eq_false.
      rewrite list_elem_of_singleton. exact Hy.
Qed.

Lemma multi_choice_toggles_one_option_witness :
  ∃ s', AttemptForm.onChange
          {| Attempt.Question.id := 2;
             Attempt.Question.question_type := Attempt.MULTI_MCQ;
             Attempt.Question.text := ""; Attempt.Question.points := 1 |}
          (AttemptForm.OptionInput 4) ∅ = Some s'
        ∧ AttemptForm.checked s'
            {| Attempt.Question.id := 2;
               Attempt.Question.question_type := Attempt.MULTI_MCQ;
               Attempt.Question.text := ""; Attempt.Question.points := 1 |} 4
          = negb (AttemptForm.checked ∅
                    {| Attempt.Question.id := 2;
                       Attempt.Question.question_type := Attempt.MULTI_MCQ;
                       Attempt.Question.text := "";
                       Attempt.Question.points := 1 |} 4)
        ∧ ∀ y, y ≠ 4%N →
               AttemptForm.checked s'
                 {| Attempt.Question.id := 2;
                    Attempt.Question.question_type := Attempt.MULTI_MCQ;
                    Attempt.Question.text := "";
                    Attempt.Question.points := 1 |} y
               = AttemptForm.checked ∅
                   {| Attempt.Question.id := 2;
                      Attempt.Question.question_type := Attempt.MULTI_MCQ;
                      Attempt.Question.text := "";
                      Attempt.Question.points := 1 |} y.
Proof.
  apply (multi_choice_toggles_one_option AttemptDemo.quiz3
           {| Attempt.Question.id := 2;
              Attempt.Question.question_type := Attempt.MULTI_MCQ;
              Attempt.Question.text := ""; Attempt.Question.points := 1 |}
           4 ∅).
  - apply AttemptForm.reach_init.
  - reflexivity.
Defined.

(** X16. In every state of the form, no entry of the payload carries both
    option ids and a boolean: answering a TRUE_FALSE question clears the
    option ids, choosing an option clears the boolean. *)
Theorem payload_entries_have_one_kind_of_answer
    (quiz : Attempt.Quiz.t) (s : gmap N Attempt.Answer)
    (e : Attempt.ParticipantAnswerSubmit) :
  AttemptForm.reachable quiz s →
  e ∈ Attempt.answers (Attempt.payload quiz s) →
  Attempt.selected_option_ids e = None
  ∨ Attempt.selected_answer_bool e = None.
Proof.
  intros Hs. unfold Attempt.payload. cbn [Attempt.answers].
  rewrite submissionAnswers_app, elem_of_app. intros [H|H].
  - apply list_elem_of_fmap in H as ([k a] & -> & Hka).
    apply elem_of_entries in Hka.
    destruct (reachable_tidy quiz s Hs k a Hka) as (l & Hl & _ & Hb).
    cbn. rewrite Hl.
    destruct (Attempt.selectedAnswerBool a) as [b|]; [left | right; reflexivity].
    rewrite Hb by discriminate. reflexivity.
  - left. unfold Attempt.pushed in H.
    apply list_elem_of_In, in_flat_map in H as (q & _ & He).
    destruct (s !! Attempt.Question.id q); [destruct He|].
    destruct He as [<-|[]]. reflexivity.
Qed.

Lemma payload_entries_have_one_kind_of_answer_witness :
  Attempt.selected_option_ids
    {| Attempt.question_id := 5; Attempt.selected_option_ids := Some [3%N];
       Attempt.selected_answer_bool := None |} = None
  ∨ Attempt.selected_answer_bool
      {| Attempt.question_id := 5; Attempt.selected_option_ids := Some [3%N];
         Attempt.selected_answer_bool := None |} = None.
Proof.
  apply (payload_entries_have_one_kind_of_answer AttemptDemo.quiz3
           (<[5%N := {| Attempt.selectedOptionIds := Some [3%N];
                        Attempt.selectedAnswerBool := None |}]> ∅)
           {| Attempt.question_id := 5;
              Attempt.selected_option_ids := Some [3%N];
              Attempt.selected_answer_bool := None |}).
  - apply (AttemptForm.reach_change AttemptDemo.quiz3 ∅ (AttemptDemo.q 5)
             (AttemptForm.OptionInput 3)).
    + apply AttemptForm.reach_init.
    + vm_compute. constructor.
    + reflexivity.
  - vm_compute. constructor.
Defined.

(** X17. In every state of the form of a quiz whose questions have pairwise
    distinct ids, the question ids of the payload's entries are the ids of
    the quiz's questions, each once: the payload has as many entries as the
    quiz has questions and none for anything else. *)
Theorem payload_covers_the_questions_once
    (quiz : Attempt.Quiz.t) (s : gmap N Attempt.Answer) :
  AttemptForm.reachable quiz s →
  NoDup (Attempt.Question.id <$> Attempt.Quiz.questions quiz) →
  Attempt.question_id <$> Attempt.answers (Attempt.payload quiz s)
    ≡ₚ Attempt.Question.id <$> Attempt.Quiz.questions quiz
  ∧ length (Attempt.answers (Attempt.payload quiz s))
    = length (Attempt.Quiz.questions quiz).
Proof.
  intros Hs Hnd.
  assert (Attempt.question_id <$> Attempt.answers (Attempt.payload quiz s)
            ≡ₚ Attempt.Question.id <$> Attempt.Quiz.questions quiz) as Hperm.
  { unfold Attempt.payload. cbn [Attempt.answers].
    rewrite submissionAnswers_app, fmap_app, answered_ids.
    apply NoDup_Permutation; [|exact Hnd|].
    - apply NoDup_app. split; [apply NoDup_entries|].
      split; [|apply NoDup_pushed_ids, Hnd].
      intros k ([k' a] & -> & Hka)%list_elem_of_fmap.
      apply elem_of_entries in Hka. rewrite elem_of_pushed_ids.
      cbn. intros [_ Hk]. congruence.
    - intros k. rewrite elem_of_app, elem_of_pushed_ids. split.
      + intros [([k' a] & -> & Hka)%list_elem_of_fmap | [Hk _]]; [|exact Hk].
        apply elem_of_entries in Hka.
        apply (reachable_dom quiz s Hs). cbn. eauto.
      + intros Hk. destruct (s !! k) as [a|] eqn:Hsk; [left | right; auto].
        apply list_elem_of_fmap. exists (k, a).
        split; [reflexivity | apply elem_of_entries, Hsk]. }
  split; [exact Hperm|].
  apply Permutation_length in Hperm. rewrite !length_fmap in Hperm.
  exact Hperm.
Qed.

Lemma payload_covers_the_questions_once_witness :
  Attempt.question_id
    <$> Attempt.answers
          (Attempt.payload AttemptDemo.quiz3
             (<[5%N := {| Attempt.selectedOptionIds := Some [3%N];
                          Attempt.selectedAnswerBool := None |}]> ∅))
    ≡ₚ Attempt.Question.id <$> Attempt.Quiz.questions AttemptDemo.quiz3
  ∧ length (Attempt.answers
              (Attempt.payload AttemptDemo.quiz3
                 (<[5%N := {| Attempt.selectedOptionIds := Some [3%N];
                              Attempt.selectedAnswerBool := None |}]> ∅)))
    = length (Attempt.Quiz.questions AttemptDemo.quiz3).
Proof.
  apply (payload_covers_the_questions_once AttemptDemo.quiz3
           (<[5%N := {| Attempt.selectedOptionIds := Some [3%N];
                        Attempt.selectedAnswerBool := None |}]> ∅)).
  - apply (AttemptForm.reach_change AttemptDemo.quiz3 ∅ (AttemptDemo.q 5)
             (AttemptForm.OptionInput 3)).
    + apply AttemptForm.reach_init.
    + vm_compute. constructor.
    + reflexivity.
  - apply (bool_decide_unpack _). vm_compute. exact I.
Defined.

(** ** fetchApi and its callers *)

Section ApiFacts.
Context {D T : Type}.
Implicit Types (transport : Api.Request D → Api.AxiosOutcome T)
  (options : Api.FetchApiOptions D).

Lemma fetchApi_sent transport (endpoint : string) options (tok : string) :
  Api.accessToken options = Some tok → tok ≠ "" →
  Api.fetchApi transport endpoint options
  = let request :=
      {| Api.url := endpoint;
         Api.req_method := default "GET" (Api.method options);
         Api.req_headers :=
           <["Authorization" := "Bearer " +:+ tok]> (Api.headers options);
         Api.req_data := Api.data options |} in
    (Some request,
     match transport request with
     | Api.Resolved response_data => Api.Returns response_data
     | Api.ErrorResponse status message =>
         Api.ThrowsError
           (if Js.truthy_str message then default "" message
            else "API request failed with status " +:+ Api.decimal status)
     | Api.ErrorRequest =>
         Api.ThrowsError "API request made but no response received."
     | Api.ErrorSetup message =>
         Api.ThrowsError ("API request setup error: " +:+ message)
     end).
Proof.
  intros Htok Hne. unfold Api.fetchApi.
  assert (Js.truthy_str (Api.accessToken options) = true) as ->
    by (apply truthy_str_true; eauto).
  rewrite Htok. reflexivity.
Qed.

Lemma fetchApi_message_nonempty transport (endpoint : string) options
    (m : string) :
  (Api.fetchApi transport endpoint options).2 = Api.ThrowsError m → m ≠ "".
Proof.
  unfold Api.fetchApi.
  destruct (Js.truthy_str (Api.accessToken options)); cbn [negb snd].
  - destruct (transport _) as [d|status message| |message]; try discriminate.
    + destruct (Js.truthy_str message) eqn:Hm.
      * apply truthy_str_true in Hm as (s & -> & Hs). cbn. congruence.
      * intros [= <-] H. apply str_app_eq_nil in H as [H _]. discriminate.
    + intros [= <-]. discriminate.
    + intros [= <-] H. apply str_app_eq_nil in H as [H _]. discriminate.
  - intros [= <-]. discriminate.
Qed.

End ApiFacts.

(** Without a usable access token (null, undefined or the empty
    string) fetchApi sends nothing and throws the error Authentication
    token is missing. *)
Theorem fetchApi_needs_a_token {D T : Type}
    (transport : Api.Request D → Api.AxiosOutcome T) (endpoint : string)
    (options : Api.FetchApiOptions D) :
  Js.truthy_str (Api.accessToken options) = false →
  Api.fetchApi transport endpoint options
  = (None, Api.ThrowsError "Authentication token is missing.").
Proof. intros H. unfold Api.fetchApi. rewrite H. reflexivity. Qed.

Lemma fetchApi_needs_a_token_witness :
  Api.fetchApi (λ _ : Api.Request unit, Api.Resolved (T := N) 1%N) "/quizzes/"
    {| Api.accessToken := Some ""; Api.method := None; Api.data := None;
       Api.headers := ∅ |}
  = (None, Api.ThrowsError "Authentication token is missing.").
Proof.
  apply (fetchApi_needs_a_token (λ _ : Api.Request unit, Api.Resolved 1%N)
           "/quizzes/"
           {| Api.accessToken := Some ""; Api.method := None;
              Api.data := None; Api.headers := ∅ |}).
  reflexivity.
Defined.

(** X18. With an access token, fetchApi sends one request to the endpoint
    whose Authorization header is Bearer followed by the token, also when
    the caller passed an Authorization header of its own; the caller's other
    headers, the data and the method (GET when none is given) go out as
    passed. *)
Theorem fetchApi_sends_the_bearer_token {D T : Type}
    (transport : Api.Request D → Api.AxiosOutcome T) (endpoint : string)
    (options : Api.FetchApiOptions D) (tok : string) :
  Api.accessToken options = Some tok → tok ≠ "" →
  ∃ request,
    (Api.fetchApi transport endpoint options).1 = Some request
    ∧ Api.url request = endpoint
    ∧ Api.req_method request = default "GET" (Api.method options)
    ∧ Api.req_data request = Api.data options
    ∧ Api.req_headers request !! "Authorization" = Some ("Bearer " +:+ tok)
    ∧ ∀ h, h ≠ "Authorization" →
           Api.req_headers request !! h = Api.headers options !! h.
Proof.
  intros Htok Hne. rewrite (fetchApi_sent _ _ _ _ Htok Hne). cbn.
  eexists. split; [reflexivity|]. cbn.
  repeat split.
  - apply lookup_insert_eq.
  - intros h Hh. apply lookup_insert_ne. congruence.
Qed.

Lemma fetchApi_sends_the_bearer_token_witness :
  ∃ request,
    (Api.fetchApi (λ _ : Api.Request unit, Api.Resolved (T := N) 1%N)
       "/quizzes/"
       {| Api.accessToken := Some "access-1"; Api.method := None;
          Api.data := None;
          Api.headers := {[ "Authorization" := "Basic abc" ]} |}).1
    = Some request
    ∧ Api.url request = "/quizzes/"
    ∧ Api.req_method request = "GET"
    ∧ Api.req_data request = None
    ∧ Api.req_headers request !! "Authorization" = Some "Bearer access-1"
    ∧ ∀ h, h ≠ "Authorization" →
           Api.req_headers request !! h
           = ({[ "Authorization" := "Basic abc" ]} : gmap string string) !! h.
Proof.
  assert ("access-1" ≠ "") as Hne by discriminate.
  exact (fetchApi_sends_the_bearer_token
           (λ _ : Api.Request unit, Api.Resolved 1%N) "/quizzes/"
           {| Api.accessToken := Some "access-1"; Api.method := None;
              Api.data := None;
              Api.headers := {[ "Authorization" := "Basic abc" ]} |}
           "access-1" eq_refl Hne).
Defined.

(** X19. Every error fetchApi throws has a non-empty message, whatever the
    transport did: the fallback texts its callers keep behind
    [err.message ||] are never shown for it. *)
Theorem fetchApi_errors_have_a_message {D T : Type}
    (transport : Api.Request D → Api.AxiosOutcome T) (endpoint : string)
    (options : Api.FetchApiOptions D) (m : string) :
  (Api.fetchApi transport endpoint options).2 = Api.ThrowsError m →
  Js.truthy_str (Some m) = true.
Proof.
  intros H. apply truthy_str_true. exists m. split; [reflexivity|].
  exact (fetchApi_message_nonempty transport endpoint options m H).
Qed.

Lemma fetchApi_errors_have_a_message_witness :
  Js.truthy_str (Some "API request failed with status 500") = true.
Proof.
  apply (fetchApi_errors_have_a_message
           (λ _ : Api.Request unit, Api.ErrorResponse (T := N) 500 (Some ""))
           "/quizzes/"
           {| Api.accessToken := Some "access-1"; Api.method := None;
              Api.data := None; Api.headers := ∅ |}
           "API request failed with status 500").
  reflexivity.
Defined.

(** X20. Called without a usable access token, getQuizDetail fetches
    nothing: fetchApi refuses the call before any request is sent, the
    error is swallowed, and the helper returns null. *)
Theorem getQuizDetail_without_token {D T : Type}
    (transport : Api.Request D → Api.AxiosOutcome T) (id : string)
    (accessToken : option string) :
  Js.truthy_str accessToken = false →
  Api.getQuizDetail transport id accessToken = (None, Api.Null).
Proof.
  intros H. unfold Api.getQuizDetail. rewrite H.
  rewrite fetchApi_needs_a_token by reflexivity. reflexivity.
Qed.

Lemma getQuizDetail_without_token_witness :
  Api.getQuizDetail (λ _ : Api.Request unit, Api.Resolved (T := N) 1%N)
                    "12" None
  = (None, Api.Null).
Proof.
  apply (getQuizDetail_without_token
           (λ _ : Api.Request unit, Api.Resolved 1%N) "12" None).
  reflexivity.
Defined.

(** X21. When the backend answers the request of getAttemptDetail with
    status 404, the helper raises notFound() exactly when the body has no
    message of its own or the message mentions 404 or Not found; a 404 with
    any other message ends in null, the page's no-permission text. *)
Theorem getAttemptDetail_on_404 {D T : Type}
    (transport : Api.Request D → Api.AxiosOutcome T) (id : string)
    (accessToken : option string) (message : option string) :
  Js.truthy_str accessToken = true →
  (∀ request, transport request = Api.ErrorResponse 404 message) →
  (Api.getAttemptDetail transport id accessToken).2 = Api.NotFound
  ↔ Js.truthy_str message = false
    ∨ Middleware.includes (default "" message) "404" = true
    ∨ Middleware.includes (default "" message) "Not found" = true.
Proof.
  intros Htok Htr. apply truthy_str_true in Htok as (tok & -> & Hne).
  unfold Api.getAttemptDetail.
  assert (Js.truthy_str (Some tok) = true) as ->
    by (apply truthy_str_true; eauto).
  cbn [negb]. erewrite fetchApi_sent; [|reflexivity|exact Hne].
  cbn zeta. rewrite Htr. cbn [snd].
  destruct (Js.truthy_str message) eqn:Hm.
  - destruct (Middleware.includes (default "" message) "404"); cbn [orb].
    { split; auto. }
    destruct (Middleware.includes (default "" message) "Not found");
      cbn [orb].
    { split; auto. }
    split; [|intros [H|[H|H]]; discriminate].
    destruct (_ || _); discriminate.
  - split; [auto|]. intros _. reflexivity.
Qed.

Lemma getAttemptDetail_on_404_witness :
  (Api.getAttemptDetail
     (λ _ : Api.Request unit, Api.ErrorResponse (T := N) 404 None)
     "12" (Some "access-1")).2 = Api.NotFound
  ↔ Js.truthy_str None = false
    ∨ Middleware.includes (default "" None) "404" = true
    ∨ Middleware.includes (default "" None) "Not found" = true.
Proof.
  apply (getAttemptDetail_on_404
           (λ _ : Api.Request unit, Api.ErrorResponse 404 None)
           "12" (Some "access-1") None); reflexivity.
Defined.

(** ** The attempt form from its check to its end *)

(** X22. With an access token on the session, handleSubmit of the attempt
    form passes fetchApi's own token check: it sends one POST to
    /quizzes/<id>/submit/ that carries the payload and the session's token
    as bearer. *)
Theorem attempt_submission_is_sent
    (transport : Api.Request Attempt.QuizSubmission
                 → Api.AxiosOutcome (option N))
    (session : option Attempt.Session) (quiz : Attempt.Quiz.t)
    (answers' : gmap N Attempt.Answer) (tok : string) :
  session ≫= Attempt.accessToken = Some tok → tok ≠ "" →
  (Submit.handleSubmit transport session quiz answers').1
  = Some {| Api.url :=
              "/quizzes/" +:+ Api.decimal (Attempt.Quiz.id quiz)
                +:+ "/submit/";
            Api.req_method := "POST";
            Api.req_headers := {[ "Authorization" := "Bearer " +:+ tok ]};
            Api.req_data := Some (Attempt.payload quiz answers') |}.
Proof.
  intros Htok Hne. unfold Submit.handleSubmit, Attempt.handleSubmit.
  assert (Js.truthy_str (session ≫= Attempt.accessToken) = true) as ->
    by (apply truthy_str_true; eauto).
  cbn [negb]. rewrite Htok. cbn [default].
  erewrite fetchApi_sent; [|reflexivity|exact Hne]. reflexivity.
Qed.

Lemma attempt_submission_is_sent_witness :
  (Submit.handleSubmit (λ _, Api.Resolved (Some 31%N))
     (Some {| Attempt.accessToken := Some "access-1" |})
     AttemptDemo.quiz3 AttemptDemo.some_answers).1
  = Some {| Api.url := "/quizzes/" +:+ Api.decimal 9 +:+ "/submit/";
            Api.req_method := "POST";
            Api.req_headers :=
              {[ "Authorization" := "Bearer " +:+ "access-1" ]};
            Api.req_data :=
              Some (Attempt.payload AttemptDemo.quiz3
                                    AttemptDemo.some_answers) |}.
Proof.
  assert ("access-1" ≠ "") as Hne by discriminate.
  exact (attempt_submission_is_sent (λ _, Api.Resolved (Some 31%N))
           (Some {| Attempt.accessToken := Some "access-1" |})
           AttemptDemo.quiz3 AttemptDemo.some_answers "access-1"
           eq_refl Hne).
Defined.

(** X23. Wherever handleSubmit of the attempt form navigates, to
    /attempts/<id> or to /attempts, the gate requires a token for that
    path. *)
Theorem attempt_submission_lands_on_protected_path
    (transport : Api.Request Attempt.QuizSubmission
                 → Api.AxiosOutcome (option N))
    (session : option Attempt.Session) (quiz : Attempt.Quiz.t)
    (answers' : gmap N Attempt.Answer) (path : string) :
  (Submit.handleSubmit transport session quiz answers').2
    = Submit.Pushed path →
  Middleware.requiresAuth path = true.
Proof.
  unfold Submit.handleSubmit.
  destruct (Attempt.handleSubmit session quiz answers') as [m|qid bearer p];
    [discriminate|].
  destruct (Api.fetchApi _ _ _) as [sent [attemptId|m]]; cbn [snd];
    [|discriminate].
  rewrite requiresAuth_unfold.
  destruct (Submit.truthy_id attemptId); intros [= <-].
  - apply orb_true_iff. left. apply startsWith_spec.
    exists ("/" +:+ Api.decimal (default 0%N attemptId)). reflexivity.
  - reflexivity.
Qed.

Lemma attempt_submission_lands_on_protected_path_witness :
  Middleware.requiresAuth ("/attempts/" +:+ Api.decimal 31) = true.
Proof.
  apply (attempt_submission_lands_on_protected_path
           (λ _, Api.Resolved (Some 31%N))
           (Some {| Attempt.accessToken := Some "access-1" |})
           AttemptDemo.quiz3 AttemptDemo.some_answers
           ("/attempts/" +:+ Api.decimal 31)).
  reflexivity.
Defined.

(** ** Who may do what *)

(** X24. On the quiz page nobody can both attempt and manage a quiz:
    attempting takes a student, managing a teacher who owns the quiz or an
    admin. *)
Theorem nobody_attempts_and_manages
    (user : option Auth.BackendUser) (quiz : Pages.QuizInfo) :
  Pages.canAttempt user quiz && Pages.canManage user quiz = false.
Proof.
  unfold Pages.canAttempt, Pages.canManage, Pages.has_role.
  destruct user as [u|]; [|reflexivity].
  destruct (Auth.role u); cbn; try reflexivity.
  rewrite andb_false_r. reflexivity.
Qed.

(** X25. The quiz list and the quiz page agree on who gets the edit and
    delete controls of a quiz: showAdminControls of the list is canManage
    of the page, for every user and quiz. *)
Theorem list_and_detail_agree_on_controls
    (user : option Auth.BackendUser) (quiz : Pages.QuizInfo) :
  Pages.showAdminControls user quiz = Pages.canManage user quiz.
Proof.
  unfold Pages.showAdminControls, Pages.canManage, Pages.has_role.
  destruct user as [u|]; [|reflexivity].
  destruct (Auth.role u); cbn; try reflexivity.
  rewrite orb_false_r. reflexivity.
Qed.

(** ** The questions of the quiz-management form *)

Section ManageFacts.
Import Manage.

Lemma remove_at_from {A} (k index : nat) (xs : list A) :
  (filter (λ p, p.1 ≠ index) (imap (λ i x, (k + i, x)%nat) xs)).*2
  = if decide (index < k)%nat then xs else delete (index - k)%nat xs.
Proof.
  revert k. induction xs as [|x xs IH]; intros k.
  - destruct (decide _); reflexivity.
  - rewrite imap_cons.
    rewrite (imap_ext _ (λ i x, (S k + i, x)%nat))
      by (intros i y _; cbn; f_equal; lia).
    rewrite filter_cons, Nat.add_0_r. cbn [fst].
    destruct (decide (k ≠ index)) as [Hne|Heq].
    + rewrite fmap_cons, IH. cbn [snd].
      destruct (decide (index < k)%nat) as [Hlt|Hge].
      * rewrite decide_True by lia. reflexivity.
      * rewrite decide_False by lia.
        replace (index - k)%nat with (S (index - S k)) by lia. reflexivity.
    + apply dec_stable in Heq. subst index. rewrite IH.
      rewrite decide_True by lia. rewrite decide_False by lia.
      rewrite Nat.sub_diag. reflexivity.
Qed.

(** The filter on the index deletes the element at that index. *)
Lemma remove_at_delete {A} (index : nat) (xs : list A) :
  remove_at index xs = delete index xs.
Proof.
  pose proof (remove_at_from 0 index xs) as H.
  rewrite decide_False in H by lia. rewrite Nat.sub_0_r in H. exact H.
Qed.

Lemma delete_out_of_range {A} (index : nat) (xs : list A) :
  (length xs ≤ index)%nat → delete index xs = xs.
Proof.
  revert index. induction xs as [|x xs IH]; intros index Hlen.
  - destruct index; reflexivity.
  - destruct index as [|index]; cbn in Hlen; [lia|].
    cbn. f_equal. apply IH. lia.
Qed.

Lemma delete_nonempty {A} (index : nat) (xs : list A) :
  (1 < length xs)%nat → delete index xs ≠ [].
Proof.
  intros Hlen Hnil. apply (f_equal length) in Hnil. cbn in Hnil.
  destruct (xs !! index) as [x|] eqn:Hx.
  - rewrite length_delete in Hnil by eauto. lia.
  - apply lookup_ge_None in Hx.
    rewrite delete_out_of_range in Hnil by exact Hx. lia.
Qed.

Lemma has_option_changed (field : QuestionField) (q : QuestionWritable) :
  has_option q → has_option (reset_incompatible field (assign field q)).
Proof.
  unfold has_option. intros Hq.
  destruct field as [[]| | |]; cbn; try exact Hq.
  - intros _. destruct (answer_options q); discriminate.
  - intros _. destruct (answer_options q); discriminate.
  - intros H. contradiction.
Qed.

End ManageFacts.

(** X26. removeQuestion never leaves the form without a question: on a form
    with questions the result has questions, and it is either the questions
    as they were (a single question, kept after the alert) or the questions
    with the one at the index taken out, the others in their order. *)
Theorem removeQuestion_keeps_a_question
    (index : nat) (questions : list Manage.QuestionWritable) :
  questions ≠ [] →
  Manage.removeQuestion index questions ≠ []
  ∧ Manage.removeQuestion index questions
    = if decide (1 < length questions)%nat
      then delete index questions else questions.
Proof.
  intros Hne. unfold Manage.removeQuestion.
  destruct (Nat.leb_spec (length questions) 1) as [Hle|Hlt].
  - rewrite decide_False by lia. auto.
  - rewrite decide_True by lia. rewrite remove_at_delete.
    split; [apply delete_nonempty, Hlt | reflexivity].
Qed.

Lemma removeQuestion_keeps_a_question_witness :
  Manage.removeQuestion 0 [Manage.initialQuestion] ≠ []
  ∧ Manage.removeQuestion 0 [Manage.initialQuestion]
    = if decide (1 < length [Manage.initialQuestion])%nat
      then delete 0%nat [Manage.initialQuestion]
      else [Manage.initialQuestion].
Proof.
  apply (removeQuestion_keeps_a_question 0 [Manage.initialQuestion]).
  discriminate.
Defined.

(** X27. removeQuestion, handleQuestionChange and removeAnswerOption keep
    the form well formed: when every question that is not TRUE_FALSE has an
    answer option before, so it is after. *)
Theorem question_handlers_keep_an_option
    (questions : list Manage.QuestionWritable) :
  Forall Manage.has_option questions →
  (∀ index, Forall Manage.has_option (Manage.removeQuestion index questions))
  ∧ (∀ index field questions',
       Manage.handleQuestionChange index field questions = Some questions' →
       Forall Manage.has_option questions')
  ∧ (∀ qIndex aIndex questions',
       Manage.removeAnswerOption qIndex aIndex questions = Some questions' →
       Forall Manage.has_option questions').
Proof.
  intros Hall. split; [|split].
  - intros index. unfold Manage.removeQuestion.
    destruct (_ <=? _)%nat; [exact Hall|].
    rewrite remove_at_delete. apply Forall_delete, Hall.
  - intros index field questions'. unfold Manage.handleQuestionChange.
    destruct (questions !! index) as [q|] eqn:Hq; [|discriminate].
    intros [= <-]. apply Forall_insert; [exact Hall|].
    apply has_option_changed. exact (Forall_lookup_1 _ _ _ _ Hall Hq).
  - intros qIndex aIndex questions'. unfold Manage.removeAnswerOption.
    destruct (questions !! qIndex) as [q|] eqn:Hq; [|discriminate].
    destruct (Nat.leb_spec (length (Manage.answer_options q)) 1) as [Hle|Hlt];
      cbn [andb].
    + destruct (Manage.is_true_false (Manage.question_type q)) eqn:Htf;
        cbn [negb]; intros [= <-]; [|exact Hall].
      apply Forall_insert; [exact Hall|].
      intros Hnot. cbn in Hnot.
      destruct (Manage.question_type q); try discriminate Htf.
      contradiction.
    + intros [= <-]. apply Forall_insert; [exact Hall|].
      intros _. cbn. rewrite remove_at_delete. apply delete_nonempty, Hlt.
Qed.

Lemma question_handlers_keep_an_option_witness :
  (∀ index, Forall Manage.has_option
              (Manage.removeQuestion index [Manage.initialQuestion]))
  ∧ (∀ index field questions',
       Manage.handleQuestionChange index field [Manage.initialQuestion]
         = Some questions' →
       Forall Manage.has_option questions')
  ∧ (∀ qIndex aIndex questions',
       Manage.removeAnswerOption qIndex aIndex [Manage.initialQuestion]
         = Some questions' →
       Forall Manage.has_option questions').
Proof.
  apply (question_handlers_keep_an_option [Manage.initialQuestion]).
  apply Forall_singleton. intros _. discriminate.
Defined.

(** X28. Changing the type of a question resets what does not fit the new
    type: after handleQuestionChange(index, question_type, t) the question
    at the index has type t; for TRUE_FALSE it has no answer options and a
    correct answer (false unless one was set), for the other types it has no
    correct boolean and at least one answer option. The other questions and
    their number are as before. *)
Theorem type_change_resets_the_question
    (index : nat) (t : Attempt.QuestionType)
    (questions questions' : list Manage.QuestionWritable) :
  Manage.handleQuestionChange index (Manage.set_question_type t) questions
    = Some questions' →
  length questions' = length questions
  ∧ (∀ j, j ≠ index → questions' !! j = questions !! j)
  ∧ ∃ q q', questions !! index = Some q ∧ questions' !! index = Some q'
      ∧ Manage.question_type q' = t
      ∧ Manage.text q' = Manage.text q
      ∧ Manage.points q' = Manage.points q
      ∧ if Manage.is_true_false t
        then Manage.answer_options q' = []
             ∧ Manage.correct_answer_bool q'
               = Some (default false (Manage.correct_answer_bool q))
        else Manage.correct_answer_bool q' = None
             ∧ Manage.answer_options q'
               = match Manage.answer_options q with
                 | [] => [Manage.initialAnswerOption]
                 | _ :: _ => Manage.answer_options q
                 end.
Proof.
  unfold Manage.handleQuestionChange.
  destruct (questions !! index) as [q|] eqn:Hq; [|discriminate].
  intros [= <-]. split; [apply length_insert|].
  split; [intros j Hj; apply list_lookup_insert_ne; congruence|].
  exists q. eexists. split; [reflexivity|].
  split; [apply list_lookup_insert_eq, (lookup_lt_Some _ _ _ Hq)|].
  destruct t; cbn; repeat split; destruct (Manage.answer_options q);
    reflexivity.
Qed.

Lemma type_change_resets_the_question_witness :
  length [{| Manage.id := None; Manage.question_type := Attempt.TRUE_FALSE;
             Manage.text := ""; Manage.points := 1;
             Manage.correct_answer_bool := Some false;
             Manage.answer_options := [] |}]
  = length [Manage.initialQuestion]
  ∧ (∀ j, j ≠ 0%nat →
          [{| Manage.id := None; Manage.question_type := Attempt.TRUE_FALSE;
              Manage.text := ""; Manage.points := 1;
              Manage.correct_answer_bool := Some false;
              Manage.answer_options := [] |}] !! j
          = [Manage.initialQuestion] !! j)
  ∧ ∃ q q', [Manage.initialQuestion] !! 0%nat = Some q
      ∧ [{| Manage.id := None; Manage.question_type := Attempt.TRUE_FALSE;
            Manage.text := ""; Manage.points := 1;
            Manage.correct_answer_bool := Some false;
            Manage.answer_options := [] |}] !! 0%nat = Some q'
      ∧ Manage.question_type q' = Attempt.TRUE_FALSE
      ∧ Manage.text q' = Manage.text q
      ∧ Manage.points q' = Manage.points q
      ∧ if Manage.is_true_false Attempt.TRUE_FALSE
        then Manage.answer_options q' = []
             ∧ Manage.correct_answer_bool q'
               = Some (default false (Manage.correct_answer_bool q))
        else Manage.correct_answer_bool q' = None
             ∧ Manage.answer_options q'
               = match Manage.answer_options q with
                 | [] => [Manage.initialAnswerOption]
                 | _ :: _ => Manage.answer_options q
                 end.
Proof.
  apply (type_change_resets_the_question 0 Attempt.TRUE_FALSE
           [Manage.initialQuestion]).
  reflexivity.
Defined.

(** X29. The shaping of a question for the payload is idempotent: shaping a
    shaped question again, in the same mode, changes nothing. *)
Theorem submitQuestion_idempotent
    (isEditMode : bool) (q : Manage.QuestionWritable) :
  Manage.submitQuestion isEditMode (Manage.submitQuestion isEditMode q)
  = Manage.submitQuestion isEditMode q.
Proof.
  assert (∀ i, Manage.kept_id isEditMode (Manage.kept_id isEditMode i)
               = Manage.kept_id isEditMode i) as Hid.
  { intros [n|]; unfold Manage.kept_id; destruct isEditMode; try reflexivity.
    destruct (N.eqb n 0) eqn:Hn; [reflexivity|]. rewrite Hn. reflexivity. }
  unfold Manage.submitQuestion. cbn. rewrite Hid.
  destruct (Manage.question_type q); try reflexivity;
    (f_equal; rewrite <- list_fmap_compose; apply list_fmap_ext;
     intros _ a _; unfold Manage.submitOption; cbn; rewrite Hid; reflexivity).
Qed.

(** X30. In the payload of the management form a TRUE_FALSE question has no
    answer options and every other question no correct boolean; a quiz
    created rather than edited goes out without any id, on its questions and
    on their options; the options of a question that is not TRUE_FALSE keep
    their number, texts and correctness. *)
Theorem submitted_question_is_clean
    (isEditMode : bool) (q : Manage.QuestionWritable) :
  match Manage.question_type (Manage.submitQuestion isEditMode q) with
  | Attempt.TRUE_FALSE =>
      Manage.answer_options (Manage.submitQuestion isEditMode q) = []
  | _ =>
      Manage.correct_answer_bool (Manage.submitQuestion isEditMode q) = None
      ∧ (λ a, (Manage.option_text a, Manage.is_correct a))
          <$> Manage.answer_options (Manage.submitQuestion isEditMode q)
        = (λ a, (Manage.option_text a, Manage.is_correct a))
            <$> Manage.answer_options q
  end
  ∧ Manage.id (Manage.submitQuestion false q) = None
  ∧ Forall (λ a, Manage.option_id a = None)
           (Manage.answer_options (Manage.submitQuestion false q)).
Proof.
  split; [|split].
  - unfold Manage.submitQuestion. cbn.
    destruct (Manage.question_type q); try reflexivity;
      (split; [reflexivity|]; rewrite <- list_fmap_compose;
       apply list_fmap_ext; intros _ a _; reflexivity).
  - reflexivity.
  - unfold Manage.submitQuestion. cbn.
    destruct (Manage.question_type q); try apply Forall_nil_2;
      (apply Forall_fmap, Forall_forall; intros a _; reflexivity).
Qed.

(** ** The added models on a few inputs *)

Example decimal_demo :
  Api.decimal 0 = "0" ∧ Api.decimal 404 = "404" ∧ Api.decimal 120 = "120".
Proof. repeat split; reflexivity. Qed.

Example toggle_demo :
  AttemptForm.toggle [1%N; 2%N; 3%N] 2 = [1%N; 3%N]
  ∧ AttemptForm.toggle [1%N; 3%N] 2 = [1%N; 3%N; 2%N]
  ∧ AttemptForm.toggle [] 2 = [2%N].
Proof. repeat split; reflexivity. Qed.

Example remove_at_demo :
  Manage.remove_at 1 ["a"; "b"; "c"] = ["a"; "c"]
  ∧ Manage.remove_at 5 ["a"; "b"; "c"] = ["a"; "b"; "c"].
Proof. repeat split; reflexivity. Qed.

Example fetchApi_demo :
  Api.fetchApi (λ _ : Api.Request unit, Api.ErrorResponse (T := N) 403 None)
    "/attempts/" {| Api.accessToken := Some "access-1"; Api.method := None;
                    Api.data := None; Api.headers := ∅ |}
  = (Some {| Api.url := "/attempts/"; Api.req_method := "GET";
             Api.req_headers := {[ "Authorization" := "Bearer access-1" ]};
             Api.req_data := None |},
     Api.ThrowsError "API request failed with status 403").
Proof. reflexivity. Qed.
